(** * AI Travel Planner: a shallow embedding of [ai_planner.py] and [app.py]

    The development follows the two source files:
    - [ai_planner.py]: the schema classes, the prompt built inside
      [generate_itinerary], the backend call and the classification of
      its outcomes;
    - [app.py]: the Streamlit script: the session slot
      ([st.session_state]), the handler of the generate button, and the
      map rendering ([all_coords], [colors]).

    Python text is modelled as [string] (the UTF-8 bytes of the text),
    Python [int] as [Z], a Python [dict] as an insertion-ordered
    association list with unique keys, [st.session_state] as a finite
    map from attribute names to Python values. *)

From Stdlib Require Import ZArith NArith Bool List Ascii String Lia.
From Stdlib Require Import DecimalString DecimalN DecimalNat DecimalZ.
From stdpp Require Import gmap strings.
Import ListNotations.

Local Open Scope Z_scope.

(** ** Python values *)

Module Py.

(** A Python [float] as [json.loads] reads it: the decimal literal
    [(-1)^neg * mant * 10^exp10], or one of the three constants the
    decoder accepts ([NaN], [Infinity], [-Infinity]).  The rounding of
    the literal to a binary double is not modelled: the program only
    passes coordinates through. *)
Inductive float : Type :=
| FDec (neg : bool) (mant : N) (exp10 : Z)
| FNaN
| FInf (neg : bool).

(** The Python values the program handles: what [json.loads] returns,
    the result dictionaries of [generate_itinerary], and [None]. *)
#[local] Unset Elimination Schemes.
Inductive val : Type :=
| VNone
| VBool (b : bool)
| VInt (n : Z)
| VFloat (f : float)
| VStr (s : string)
| VList (l : list val)
| VDict (d : list (string * val)).
#[local] Set Elimination Schemes.

(** [bool(v)]: Python truthiness. *)
Definition float_truthy (f : float) : bool :=
  match f with
  | FDec _ m _ => negb (N.eqb m 0)
  | FNaN | FInf _ => true
  end.

Definition truthy (v : val) : bool :=
  match v with
  | VNone => false
  | VBool b => b
  | VInt n => negb (Z.eqb n 0)
  | VFloat f => float_truthy f
  | VStr s => negb (String.eqb s "")
  | VList l => match l with [] => false | _ => true end
  | VDict d => match d with [] => false | _ => true end
  end.

(** [d.get(k)] on an association list holding each key once. *)
Fixpoint dict_get (k : string) (d : list (string * val)) : option val :=
  match d with
  | [] => None
  | (k', v) :: d' => if String.eqb k k' then Some v else dict_get k d'
  end.

(** [d[k] = v]: a present key keeps its position, a new key goes last. *)
Fixpoint dict_set (k : string) (v : val) (d : list (string * val))
  : list (string * val) :=
  match d with
  | [] => [(k, v)]
  | (k', v') :: d' =>
      if String.eqb k k' then (k, v) :: d' else (k', v') :: dict_set k v d'
  end.

(** [str(n)] for an [int]. *)
Definition str_int (n : Z) : string := NilZero.string_of_int (Z.to_int n).

(** [sep.join(l)]. *)
Fixpoint join (sep : string) (l : list string) : string :=
  match l with
  | [] => ""
  | [x] => x
  | x :: l' => x +:+ sep +:+ join sep l'
  end.

(** [needle in hay] for strings. *)
Fixpoint has_prefix (p s : string) : bool :=
  match p, s with
  | EmptyString, _ => true
  | String a p', String b s' => Ascii.eqb a b && has_prefix p' s'
  | String _ _, EmptyString => false
  end.

Fixpoint contains (needle hay : string) : bool :=
  has_prefix needle hay ||
  match hay with
  | EmptyString => false
  | String _ hay' => contains needle hay'
  end.

(** [s.lower()] on ASCII letters. *)
Definition lower_char (c : ascii) : ascii :=
  let n := N_of_ascii c in
  if ((65 <=? n) && (n <=? 90))%N then ascii_of_N (n + 32) else c.

Fixpoint lower (s : string) : string :=
  match s with
  | EmptyString => ""
  | String c s' => String (lower_char c) (lower s')
  end.

End Py.

Import Py.

(** ** [json.loads]

    The decoder of Python's [json] module, which [generate_itinerary]
    applies to the response text: the scanner ([scan_once]), the string,
    number, array and object readers, and [loads], which skips the
    surrounding whitespace and refuses trailing data.  A failure is the
    [JSONDecodeError] the decoder raises, kept as its message and the
    rest of the document at the position it reports. *)

Module Json.

Definition dquote : ascii := "034"%char.
Definition backslash : ascii := "092"%char.

Inductive scan (A : Type) : Type :=
| Ok (a : A) (rest : string)
| Fail (msg : string) (rest : string).
Arguments Ok {A} a rest.
Arguments Fail {A} msg rest.

Definition scan_map {A B : Type} (f : A -> B) (r : scan A) : scan B :=
  match r with
  | Ok a rest => Ok (f a) rest
  | Fail msg rest => Fail msg rest
  end.

(** [WHITESPACE]: space, tab, line feed, carriage return. *)
Definition is_ws (c : ascii) : bool :=
  match c with
  | " " | "009" | "010" | "013" => true
  | _ => false
  end%char.

Fixpoint skip_ws (s : string) : string :=
  match s with
  | String c s' => if is_ws c then skip_ws s' else s
  | EmptyString => s
  end.

Fixpoint drop (n : nat) (s : string) : string :=
  match n, s with
  | S n', String _ s' => drop n' s'
  | _, _ => s
  end.

(** *** Strings *)

Definition hex_val (c : ascii) : option N :=
  let n := N_of_ascii c in
  (if (48 <=? n) && (n <=? 57) then Some (n - 48)
   else if (97 <=? n) && (n <=? 102) then Some (n - 87)
   else if (65 <=? n) && (n <=? 70) then Some (n - 55)
   else None)%N.

(** The four hexadecimal digits of a [\uXXXX] escape. *)
Definition hex4 (a b c d : ascii) : option N :=
  match hex_val a, hex_val b, hex_val c, hex_val d with
  | Some x, Some y, Some z, Some w => Some (((x * 16 + y) * 16 + z) * 16 + w)%N
  | _, _, _, _ => None
  end.

(** [chr(n)], as the UTF-8 bytes of the code point. *)
Definition utf8 (n : N) : string :=
  let byte (k : N) := ascii_of_N k in
  (if n <? 128 then String (byte n) ""
   else if n <? 2048 then
     String (byte (192 + n / 64)) (String (byte (128 + n mod 64)) "")
   else if n <? 65536 then
     String (byte (224 + n / 4096))
       (String (byte (128 + (n / 64) mod 64)) (String (byte (128 + n mod 64)) ""))
   else
     String (byte (240 + n / 262144))
       (String (byte (128 + (n / 4096) mod 64))
          (String (byte (128 + (n / 64) mod 64)) (String (byte (128 + n mod 64)) ""))))%N.

Definition is_high_surrogate (n : N) : bool := ((55296 <=? n) && (n <=? 56319))%N.
Definition is_low_surrogate (n : N) : bool := ((56320 <=? n) && (n <=? 57343))%N.
Definition surrogate_pair (hi lo : N) : N :=
  (65536 + ((hi - 55296) * 1024 + (lo - 56320)))%N.

(** [BACKSLASH]: the one-letter escapes. *)
Definition unescape (c : ascii) : option ascii :=
  if Ascii.eqb c dquote then Some dquote
  else if Ascii.eqb c backslash then Some backslash
  else match c with
       | "/" => Some "/"
       | "b" => Some "008"
       | "f" => Some "012"
       | "n" => Some "010"
       | "r" => Some "013"
       | "t" => Some "009"
       | _ => None
       end%char.

Definition scan_app (p : string) (r : scan string) : scan string :=
  scan_map (String.append p) r.

(** [scanstring]: [s] starts after the opening quote, [begin] at it. *)
Fixpoint scanstring (begin s : string) {struct s} : scan string :=
  match s with
  | EmptyString => Fail "Unterminated string starting at" begin
  | String c s1 =>
    if Ascii.eqb c dquote then Ok "" s1
    else if Ascii.eqb c backslash then
      match s1 with
      | EmptyString => Fail "Unterminated string starting at" begin
      | String e s2 =>
        if Ascii.eqb e "u" then
          match s2 with
          | String h1 (String h2 (String h3 (String h4 s3))) =>
            match hex4 h1 h2 h3 h4 with
            | None => Fail "Invalid \uXXXX escape" s
            | Some uni =>
              match s3 with
              | String b (String u (String g1 (String g2 (String g3 (String g4 s4))))) =>
                if is_high_surrogate uni && Ascii.eqb b backslash && Ascii.eqb u "u"
                then
                  match hex4 g1 g2 g3 g4 with
                  | None => Fail "Invalid \uXXXX escape" s3
                  | Some uni2 =>
                    if is_low_surrogate uni2
                    then scan_app (utf8 (surrogate_pair uni uni2)) (scanstring begin s4)
                    else scan_app (utf8 uni) (scanstring begin s3)
                  end
                else scan_app (utf8 uni) (scanstring begin s3)
              | _ => scan_app (utf8 uni) (scanstring begin s3)
              end
            end
          | _ => Fail "Invalid \uXXXX escape" s
          end
        else
          match unescape e with
          | Some ch => scan_map (String ch) (scanstring begin s2)
          | None => Fail "Invalid \escape" s
          end
      end
    else if (N_of_ascii c <? 32)%N then Fail "Invalid control character at" s
    else scan_map (String c) (scanstring begin s1)
  end.

(** *** Numbers

    [NUMBER_RE]: an optional minus sign and an integer part (a single
    zero, or a non-zero digit followed by digits); then, each optional, a
    fraction (a dot and at least one digit) and an exponent (e or E, an
    optional sign, at least one digit). *)

Definition digit (c : ascii) : option (Decimal.uint -> Decimal.uint) :=
  match c with
  | "0" => Some Decimal.D0 | "1" => Some Decimal.D1 | "2" => Some Decimal.D2
  | "3" => Some Decimal.D3 | "4" => Some Decimal.D4 | "5" => Some Decimal.D5
  | "6" => Some Decimal.D6 | "7" => Some Decimal.D7 | "8" => Some Decimal.D8
  | "9" => Some Decimal.D9
  | _ => None
  end%char.

(** The longest run of digits at the head of [s]. *)
Fixpoint scan_digits (s : string) : Decimal.uint * string :=
  match s with
  | String c s' =>
    match digit c with
    | Some d => let (u, r) := scan_digits s' in (d u, r)
    | None => (Decimal.Nil, s)
    end
  | EmptyString => (Decimal.Nil, s)
  end.

Definition scan_integer (s : string) : option (Decimal.uint * string) :=
  match s with
  | String c s' =>
    if Ascii.eqb c "0" then Some (Decimal.D0 Decimal.Nil, s')
    else match digit c with
         | Some _ => Some (scan_digits s)
         | None => None
         end
  | EmptyString => None
  end.

Definition scan_frac (s : string) : option (Decimal.uint * string) :=
  match s with
  | String "." s' =>
    match scan_digits s' with
    | (Decimal.Nil, _) => None
    | (u, r) => Some (u, r)
    end
  | _ => None
  end.

Definition scan_exp (s : string) : option (Z * string) :=
  match s with
  | String c s' =>
    if Ascii.eqb c "e" || Ascii.eqb c "E" then
      let '(neg, s'') :=
        match s' with
        | String "-" t => (true, t)
        | String "+" t => (false, t)
        | _ => (false, s')
        end in
      match scan_digits s'' with
      | (Decimal.Nil, _) => None
      | (u, r) =>
        let n := Z.of_N (N.of_uint u) in
        Some (if neg then - n else n, r)
      end
    else None
  | EmptyString => None
  end.

(** [int(integer)] when neither fraction nor exponent is present,
    [float(integer + frac + exp)] otherwise. *)
Definition match_number (s : string) : option (val * string) :=
  let '(neg, s1) :=
    match s with
    | String "-" t => (true, t)
    | _ => (false, s)
    end in
  match scan_integer s1 with
  | None => None
  | Some (i, s2) =>
    let n := N.of_uint i in
    match scan_frac s2 with
    | Some (f, s3) =>
      let k := Z.of_nat (Decimal.nb_digits f) in
      let m := (n * 10 ^ Z.to_N k + N.of_uint f)%N in
      match scan_exp s3 with
      | Some (e, s4) => Some (VFloat (FDec neg m (e - k)), s4)
      | None => Some (VFloat (FDec neg m (- k)), s3)
      end
    | None =>
      match scan_exp s2 with
      | Some (e, s4) => Some (VFloat (FDec neg n e), s4)
      | None => Some (VInt (if neg then - Z.of_N n else Z.of_N n), s2)
      end
    end
  end.

(** *** Values, arrays and objects *)

(** [dict(pairs)]: a repeated key keeps its first position and its last
    value. *)
Definition dict_of_pairs (pairs : list (string * val)) : list (string * val) :=
  fold_left (fun d kv => dict_set (fst kv) (snd kv) d) pairs [].

Definition expecting_name : string :=
  "Expecting property name enclosed in double quotes".

(** [fuel] bounds the nesting of arrays and objects plus the number of
    their items; [loads] supplies the length of the document, which is
    always enough.  The recursion limit of the interpreter is not
    modelled. *)
Fixpoint scan_once (fuel : nat) (s : string) {struct fuel} : scan val :=
  match fuel with
  | O => Fail "maximum recursion depth exceeded" s
  | S fuel' =>
    match s with
    | EmptyString => Fail "Expecting value" s
    | String c s' =>
      if Ascii.eqb c dquote then scan_map VStr (scanstring s s')
      else if Ascii.eqb c "{" then
        let s1 := skip_ws s' in
        match s1 with
        | String q s2 =>
          if Ascii.eqb q "}" then Ok (VDict []) s2
          else if Ascii.eqb q dquote
          then scan_map (fun ps => VDict (dict_of_pairs ps)) (object_items fuel' s1 s2)
          else Fail expecting_name s1
        | EmptyString => Fail expecting_name s1
        end
      else if Ascii.eqb c "[" then
        let s1 := skip_ws s' in
        match s1 with
        | String "]" s2 => Ok (VList []) s2
        | _ => scan_map VList (array_items fuel' s1)
        end
      else if has_prefix "null" s then Ok VNone (drop 4 s)
      else if has_prefix "true" s then Ok (VBool true) (drop 4 s)
      else if has_prefix "false" s then Ok (VBool false) (drop 5 s)
      else
        match match_number s with
        | Some (v, r) => Ok v r
        | None =>
          if has_prefix "NaN" s then Ok (VFloat FNaN) (drop 3 s)
          else if has_prefix "Infinity" s then Ok (VFloat (FInf false)) (drop 8 s)
          else if has_prefix "-Infinity" s then Ok (VFloat (FInf true)) (drop 9 s)
          else Fail "Expecting value" s
        end
    end
  end

(** The loop of [JSONArray]: [s] is at the next value. *)
with array_items (fuel : nat) (s : string) {struct fuel} : scan (list val) :=
  match fuel with
  | O => Fail "maximum recursion depth exceeded" s
  | S fuel' =>
    match scan_once fuel' s with
    | Fail msg r => Fail msg r
    | Ok v r =>
      let r1 := skip_ws r in
      match r1 with
      | String "]" r2 => Ok [v] r2
      | String "," r2 => scan_map (cons v) (array_items fuel' (skip_ws r2))
      | _ => Fail "Expecting ',' delimiter" r1
      end
    end
  end

(** The loop of [JSONObject]: [s] is after the opening quote of the next
    key, [begin] at it. *)
with object_items (fuel : nat) (begin s : string) {struct fuel}
  : scan (list (string * val)) :=
  match fuel with
  | O => Fail "maximum recursion depth exceeded" s
  | S fuel' =>
    match scanstring begin s with
    | Fail msg r => Fail msg r
    | Ok key r =>
      let r1 := skip_ws r in
      match r1 with
      | String ":" r2 =>
        match scan_once fuel' (skip_ws r2) with
        | Fail msg r3 => Fail msg r3
        | Ok v r3 =>
          let r4 := skip_ws r3 in
          match r4 with
          | String "}" r5 => Ok [(key, v)] r5
          | String "," r5 =>
            let r6 := skip_ws r5 in
            match r6 with
            | String q r7 =>
              if Ascii.eqb q dquote
              then scan_map (cons (key, v)) (object_items fuel' r6 r7)
              else Fail expecting_name r6
            | EmptyString => Fail expecting_name r6
            end
          | _ => Fail "Expecting ',' delimiter" r4
          end
        end
      | _ => Fail "Expecting ':' delimiter" r1
      end
    end
  end.

(** *** [JSONDecodeError] and [loads] *)

(** Line and column (both from 1) of position [pos] of [doc]. *)
Fixpoint line_col (doc : string) (pos : nat) (line col : nat) : nat * nat :=
  match pos, doc with
  | S pos', String c doc' =>
    if Ascii.eqb c "010" then line_col doc' pos' (S line) 1%nat
    else line_col doc' pos' line (S col)
  | _, _ => (line, col)
  end.

Definition str_nat (n : nat) : string := NilZero.string_of_uint (Nat.to_uint n).

(** [str(JSONDecodeError(msg, doc, pos))]. *)
Definition error_message (msg doc : string) (pos : nat) : string :=
  let '(line, col) := line_col doc pos 1%nat 1%nat in
  msg +:+ ": line " +:+ str_nat line +:+ " column " +:+ str_nat col
      +:+ " (char " +:+ str_nat pos +:+ ")".

Definition position (doc rest : string) : nat :=
  (String.length doc - String.length rest)%nat.

(** [json.loads(doc)]: the value, or the message of the error raised. *)
Definition loads (doc : string) : val + string :=
  match scan_once (S (String.length doc)) (skip_ws doc) with
  | Fail msg rest => inr (error_message msg doc (position doc rest))
  | Ok v rest =>
    match skip_ws rest with
    | EmptyString => inl v
    | rest' => inr (error_message "Extra data" doc (position doc rest'))
    end
  end.

(** *** [json.dumps]

    The encoder with its default separators, as with
    [ensure_ascii=False]: text is written as it is (bytes above 127
    included), except for the quote, the backslash and the control
    characters, which are escaped.  A float is written as the decimal
    literal it stands for, mantissa and exponent (Python writes the
    shortest literal that reads back as the same double). *)

Definition hex_digit (n : N) : ascii :=
  match n with
  | 0 => "0" | 1 => "1" | 2 => "2" | 3 => "3" | 4 => "4" | 5 => "5"
  | 6 => "6" | 7 => "7" | 8 => "8" | 9 => "9" | 10 => "a" | 11 => "b"
  | 12 => "c" | 13 => "d" | 14 => "e" | _ => "f"
  end%N%char.

Definition escape_char (c : ascii) : string :=
  if Ascii.eqb c dquote then String backslash (String dquote "")
  else if Ascii.eqb c backslash then String backslash (String backslash "")
  else match c with
       | "010" => String backslash "n"
       | "013" => String backslash "r"
       | "009" => String backslash "t"
       | "008" => String backslash "b"
       | "012" => String backslash "f"
       | _ =>
         let n := N_of_ascii c in
         if (n <? 32)%N
         then String backslash
                (String "u" (String "0" (String "0"
                   (String (hex_digit (n / 16)) (String (hex_digit (n mod 16)) "")))))
         else String c ""
       end%char.

Fixpoint escape (s : string) : string :=
  match s with
  | EmptyString => ""
  | String c s' => escape_char c +:+ escape s'
  end.

Definition dumps_str (s : string) : string :=
  String dquote (escape s +:+ String dquote "").

Definition str_N (n : N) : string := NilZero.string_of_uint (N.to_uint n).

Definition dumps_float (f : float) : string :=
  match f with
  | FDec neg m e => (if neg then "-" else "") +:+ str_N m +:+ "e" +:+ str_int e
  | FNaN => "NaN"
  | FInf false => "Infinity"
  | FInf true => "-Infinity"
  end.

Fixpoint dumps (v : val) : string :=
  match v with
  | VNone => "null"
  | VBool true => "true"
  | VBool false => "false"
  | VInt n => str_int n
  | VFloat f => dumps_float f
  | VStr s => dumps_str s
  | VList l => "[" +:+ join ", " (map dumps l) +:+ "]"
  | VDict d =>
    "{" +:+ join ", " (map (fun kv => dumps_str (fst kv) +:+ ": " +:+ dumps (snd kv)) d)
        +:+ "}"
  end.

End Json.

(** ** [ai_planner.py]: the schema classes (lines 7-24) *)

Record Activity : Type := {
  name : string;
  time : string;
  description : string;
  cost_estimate : string;
  latitude : float;
  longitude : float
}.

Record DailyPlan : Type := {
  day : Z;
  theme : string;
  activities : list Activity
}.

Record TripItinerary : Type := {
  trip_destination : string;
  total_estimated_cost : string;
  budget_tips : list string;
  itinerary : list DailyPlan
}.

(** The dictionary form of a record: one key per declared field, in the
    order of declaration. *)
Definition Activity_dict (a : Activity) : val :=
  VDict [("name", VStr (name a)); ("time", VStr (time a));
         ("description", VStr (description a));
         ("cost_estimate", VStr (cost_estimate a));
         ("latitude", VFloat (latitude a)); ("longitude", VFloat (longitude a))].

Definition DailyPlan_dict (d : DailyPlan) : val :=
  VDict [("day", VInt (day d)); ("theme", VStr (theme d));
         ("activities", VList (map Activity_dict (activities d)))].

Definition TripItinerary_dict (t : TripItinerary) : val :=
  VDict [("destination", VStr (trip_destination t));
         ("total_estimated_cost", VStr (total_estimated_cost t));
         ("budget_tips", VList (map VStr (budget_tips t)));
         ("itinerary", VList (map DailyPlan_dict (itinerary t)))].

(** ** Schema validation and the wire form *)

(** Modelled from the spec: the validation of a decoded payload against
    the schema classes is not in the sources ([generate_itinerary] keeps
    the dictionary [json.loads] returns).  Following the spec, a record
    is accepted only when every declared field is present and of the
    declared primitive kind: a text field takes a text, the integer field
    an integer, a numeric field a number, a sequence field a sequence
    whose items are all accepted; nothing is coerced, and one refused
    item refuses the whole payload. *)
Definition as_str (v : val) : option string :=
  match v with VStr s => Some s | _ => None end.

Definition as_int (v : val) : option Z :=
  match v with VInt n => Some n | _ => None end.

Definition as_float (v : val) : option float :=
  match v with
  | VFloat f => Some f
  | VInt n => Some (FDec (n <? 0) (Z.abs_N n) 0)
  | _ => None
  end.

Definition as_list {A : Type} (item : val -> option A) (v : val) : option (list A) :=
  match v with VList l => mapM item l | _ => None end.

Definition field {A : Type} (d : list (string * val)) (k : string)
    (kind : val -> option A) : option A :=
  dict_get k d ≫= kind.

Definition validate_Activity (v : val) : option Activity :=
  match v with
  | VDict d =>
    n ← field d "name" as_str;
    t ← field d "time" as_str;
    de ← field d "description" as_str;
    c ← field d "cost_estimate" as_str;
    la ← field d "latitude" as_float;
    lo ← field d "longitude" as_float;
    Some {| name := n; time := t; description := de; cost_estimate := c;
            latitude := la; longitude := lo |}
  | _ => None
  end.

Definition validate_DailyPlan (v : val) : option DailyPlan :=
  match v with
  | VDict d =>
    n ← field d "day" as_int;
    t ← field d "theme" as_str;
    acts ← field d "activities" (as_list validate_Activity);
    Some {| day := n; theme := t; activities := acts |}
  | _ => None
  end.

Definition validate_TripItinerary (v : val) : option TripItinerary :=
  match v with
  | VDict d =>
    de ← field d "destination" as_str;
    c ← field d "total_estimated_cost" as_str;
    tips ← field d "budget_tips" (as_list as_str);
    days ← field d "itinerary" (as_list validate_DailyPlan);
    Some {| trip_destination := de; total_estimated_cost := c;
            budget_tips := tips; itinerary := days |}
  | _ => None
  end.

(** Modelled from the spec: the wire JSON form of a record and its
    decoding are not in the sources.  The wire form is the JSON text of
    the record's dictionary; decoding parses the text and validates the
    value against the schema. *)
Definition encode_TripItinerary (t : TripItinerary) : string :=
  Json.dumps (TripItinerary_dict t).

Definition decode_TripItinerary (text : string) : option TripItinerary :=
  match Json.loads text with
  | inl v => validate_TripItinerary v
  | inr _ => None
  end.

(** ** [ai_planner.py]: the prompt of [generate_itinerary] (lines 36-49) *)

Definition nl : ascii := "010"%char.

Definition interests_str (interests : list string) : string :=
  match interests with
  | [] => "General sightseeing"
  | _ => join ", " interests
  end.

Definition notes_str (notes : string) : string :=
  if truthy (VStr notes)
  then String nl ("Additional Notes: " +:+ notes)
  else "".

Definition prompt (destination : string) (days : Z) (budget : string)
    (interests : list string) (notes : string) : string :=
  String nl
  ("    You are an expert travel planner specializing in budget travel for college students." +:+
  String nl
  ("    Create a detailed " +:+ str_int days +:+ "-day itinerary for " +:+ destination +:+ "." +:+
  String nl
  ("    " +:+
  String nl
  ("    Constraints & Preferences:" +:+
  String nl
  ("    - Budget Level: " +:+ budget +:+ ". Prioritize free activities, student discounts, street food, and cheap transport." +:+
  String nl
  ("    - Interests: " +:+ interests_str interests +:+ "." +:+ notes_str notes +:+
  String nl
  ("    " +:+
  String nl
  ("    For every activity, you must provide realistic latitude and longitude coordinates. " +:+
  String nl
  ("    Ensure locations for a single day are geographically close to minimize transit time and costs." +:+
  String nl
  "    "))))))))).

(** ** Exceptions and effects

    The exceptions the program can meet are all subclasses of
    [Exception]; [generate_itinerary] tells [InvalidArgument] (of
    [google.api_core.exceptions]) from the rest.  Each carries [str(e)]. *)

Inductive exn : Type :=
| InvalidArgument (str_e : string)
| JSONDecodeError (str_e : string)
| KeyError (str_e : string)
| TypeError (str_e : string)
| Exception (str_e : string).

Definition str_exn (e : exn) : string :=
  match e with
  | InvalidArgument s | JSONDecodeError s | KeyError s | TypeError s
  | Exception s => s
  end.

(** The request [model.generate_content] sends for one call. *)
Record request : Type := {
  req_api_key : string;
  req_model : string;
  req_prompt : string;
  req_response_mime_type : string;
  req_temperature : float
}.

Inductive ui_event : Type :=
| StError (msg : string)
| StWarning (msg : string).

(** What a run of the script can touch: [st.session_state], the log of
    outbound backend calls, and the messages shown. *)
Record world : Type := {
  session_state : gmap string val;
  outbound : list request;
  shown : list ui_event
}.

(** A computation returns a value or raises, and updates the world. *)
Definition M (A : Type) : Type := world -> (A + exn) * world.

Definition ret {A : Type} (a : A) : M A := fun w => (inl a, w).
Definition raise {A : Type} (e : exn) : M A := fun w => (inr e, w).
Definition bind {A B : Type} (m : M A) (k : A -> M B) : M B :=
  fun w =>
    match m w with
    | (inl a, w') => k a w'
    | (inr e, w') => (inr e, w')
    end.

Notation "'let*' x ':=' m 'in' k" := (bind m (fun x => k))
  (at level 10, x name, m at level 100, k at level 200).
Notation "m ';;;' k" := (bind m (fun _ => k))
  (at level 100, k at level 200, right associativity).

(** [try: body  except InvalidArgument as e: h1  except Exception as e: h2] *)
Definition try_except {A : Type} (body : M A)
    (on_invalid_argument : exn -> M A) (on_exception : exn -> M A) : M A :=
  fun w =>
    match body w with
    | (inl a, w') => (inl a, w')
    | (inr (InvalidArgument s), w') => on_invalid_argument (InvalidArgument s) w'
    | (inr e, w') => on_exception e w'
    end.

Definition session_get (k : string) : M val :=
  fun w =>
    match session_state w !! k with
    | Some v => (inl v, w)
    | None => (inr (KeyError k), w)
    end.

Definition session_mem (k : string) : M bool :=
  fun w => (inl (bool_decide (is_Some (session_state w !! k))), w).

Definition session_set (k : string) (v : val) : M unit :=
  fun w => (inl tt, {| session_state := <[k := v]> (session_state w);
                       outbound := outbound w;
                       shown := shown w |}).

Definition show (e : ui_event) : M unit :=
  fun w => (inl tt, {| session_state := session_state w;
                       outbound := outbound w;
                       shown := shown w ++ [e] |}).

(** ** [ai_planner.py]: [generate_itinerary] *)

Section Planner.

(** The backend: for a request, the text of the response
    ([response.text]) or the exception raised while obtaining it. *)
Variable backend : request -> string + exn.

(** [model.generate_content(...)] followed by [response.text]: one
    outbound call. *)
Definition generate_content (r : request) : M string :=
  fun w =>
    (match backend r with inl text => inl text | inr e => inr e end,
     {| session_state := session_state w;
        outbound := outbound w ++ [r];
        shown := shown w |}).

Definition json_loads (text : string) : M val :=
  match Json.loads text with
  | inl v => ret v
  | inr msg => raise (JSONDecodeError msg)
  end.

Definition invalid_key_message : string :=
  "Invalid API Key provided. Please check your Gemini API key.".

(** The [print] of the last handler writes to the console only and is
    left out. *)
Definition generate_itinerary (api_key destination : string) (days : Z)
    (budget : string) (interests : list string) (notes : string)
  : M (list (string * val)) :=
  let prompt := prompt destination days budget interests notes in
  try_except
    (let* text := generate_content
                    {| req_api_key := api_key;
                       req_model := "gemini-2.5-flash";
                       req_prompt := prompt;
                       req_response_mime_type := "application/json";
                       req_temperature := FDec false 7 (-1) |} in
     let* result_dict := json_loads text in
     ret [("status", VStr "success"); ("data", result_dict)])
    (fun e => ret [("status", VStr "error"); ("message", VStr invalid_key_message)])
    (fun e => ret [("status", VStr "error"); ("message", VStr (str_exn e))]).

(** ** [app.py]: the generate handler (lines 86-116) *)

Inductive budget_tier : Type := Ultra_budget | Budget | Moderate.

Definition budget_text (b : budget_tier) : string :=
  match b with
  | Ultra_budget => "Ultra-budget"
  | Budget => "Budget"
  | Moderate => "Moderate"
  end.

(** The values the sidebar widgets and the environment give one run. *)
Record inputs : Type := {
  api_key : option string;
  destination : string;
  duration_days : Z;
  budget_level : budget_tier;
  interests : list string;
  additional_notes : string;
  generate_btn : bool
}.

Definition str_truthy (s : string) : bool := truthy (VStr s).

(** [result["data"]] *)
Definition dict_item (d : list (string * val)) (k : string) : M val :=
  match dict_get k d with
  | Some v => ret v
  | None => raise (KeyError k)
  end.

(** [result.get(k) == s] *)
Definition get_is_str (d : list (string * val)) (k s : string) : bool :=
  match dict_get k d with
  | Some (VStr t) => String.eqb t s
  | _ => false
  end.

(** [result.get(k, default)] *)
Definition dict_get_default (d : list (string * val)) (k : string) (default : val) : val :=
  match dict_get k d with
  | Some v => v
  | None => default
  end.

Definition state_initialization : M unit :=
  (let* present := session_mem "itinerary_data" in
   if negb present then session_set "itinerary_data" VNone else ret tt) ;;;
  (let* present := session_mem "error_message" in
   if negb present then session_set "error_message" VNone else ret tt).

Definition on_generate (i : inputs) : M unit :=
  session_set "itinerary_data" VNone ;;;
  session_set "error_message" VNone ;;;
  match api_key i with
  | None =>
    show (StError "Please provide a Gemini API Key in the sidebar or `.env` file to proceed.")
  | Some key =>
    if negb (str_truthy key) || String.eqb key "your_api_key_here" then
      show (StError "Please provide a Gemini API Key in the sidebar or `.env` file to proceed.")
    else if negb (str_truthy (destination i)) then
      show (StWarning "Please enter a destination.")
    else
      let* result := generate_itinerary key (destination i) (duration_days i)
                       (budget_text (budget_level i)) (interests i)
                       (additional_notes i) in
      if truthy (VDict result) && get_is_str result "status" "success" then
        let* data := dict_item result "data" in
        session_set "itinerary_data" data ;;;
        session_set "error_message" VNone
      else
        session_set "itinerary_data" VNone ;;;
        session_set "error_message"
          (if truthy (VDict result)
           then dict_get_default result "message" (VStr "An unknown error occurred.")
           else VStr "Failed to get a response from the AI planner.")
  end.

(** One run of the script up to the main UI. *)
Definition script (i : inputs) : M unit :=
  state_initialization ;;;
  if generate_btn i then on_generate i else ret tt.

End Planner.

(** ** [app.py]: the map (lines 141-167)

    The rendering works on the raw dictionary held in the session slot,
    so every subscript and every loop can raise. *)

Definition exc (A : Type) : Type := A + exn.

Definition exc_bind {A B : Type} (m : exc A) (k : A -> exc B) : exc B :=
  match m with
  | inl a => k a
  | inr e => inr e
  end.

Notation "'try*' x ':=' m 'in' k" := (exc_bind m (fun x => k))
  (at level 10, x name, m at level 100, k at level 200).

(** [v[k]] for a text key. *)
Definition getitem (v : val) (k : string) : exc val :=
  match v with
  | VDict d =>
    match dict_get k d with
    | Some x => inl x
    | None => inr (KeyError k)
    end
  | _ => inr (TypeError "indices must be integers")
  end.

Fixpoint chars (s : string) : list val :=
  match s with
  | EmptyString => []
  | String c s' => VStr (String c "") :: chars s'
  end.

(** [for x in v]: the items of a list, the keys of a dictionary, the
    characters of a text. *)
Definition iter (v : val) : exc (list val) :=
  match v with
  | VList l => inl l
  | VDict d => inl (map (fun kv => VStr (fst kv)) d)
  | VStr s => inl (chars s)
  | _ => inr (TypeError "object is not iterable")
  end.

(** A loop whose body can raise: the results of the body, in order. *)
Fixpoint for_each {A B : Type} (body : A -> exc B) (l : list A) : exc (list B) :=
  match l with
  | [] => inl []
  | x :: l' =>
    try* y := body x in
    try* ys := for_each body l' in
    inl (y :: ys)
  end.

(** The first pass: [all_coords]. *)
Definition day_coords (day : val) : exc (list val) :=
  try* acts := getitem day "activities" in
  try* acts := iter acts in
  for_each (fun act =>
              try* lat := getitem act "latitude" in
              try* lon := getitem act "longitude" in
              inl (VList [lat; lon])) acts.

Definition all_coords (itinerary_data : val) : exc (list val) :=
  try* days := getitem itinerary_data "itinerary" in
  try* days := iter days in
  try* per_day := for_each day_coords days in
  inl (concat per_day).

Definition colors : list string :=
  ["red"; "blue"; "green"; "purple"; "orange"; "darkred"; "lightred";
   "beige"; "darkblue"; "darkgreen"; "cadetblue"; "darkpurple"; "white";
   "pink"; "lightblue"; "lightgreen"; "gray"; "black"; "lightgray"].

(** [palette[(d - 1) % len(palette)]] for an [int] day number: [%] is
    Python's, whose result has the sign of the divisor. *)
Definition palette_color (palette : list string) (d : Z) : option string :=
  nth_error palette (Z.to_nat ((d - 1) mod Z.of_nat (length palette))).

(** [colors[(day['day'] - 1) % len(colors)]]: a [bool] counts as an
    [int]; a [float] gives a [float] index, which a list refuses. *)
Definition day_color (d : val) : exc string :=
  match d with
  | VInt n =>
    match palette_color colors n with
    | Some c => inl c
    | None => inr (Exception "list index out of range")
    end
  | VBool b =>
    match palette_color colors (if b then 1 else 0) with
    | Some c => inl c
    | None => inr (Exception "list index out of range")
    end
  | VFloat _ => inr (TypeError "list indices must be integers or slices, not float")
  | _ => inr (TypeError "unsupported operand type(s) for -")
  end.

(** A [folium.Marker]: its position, the values its popup and tooltip
    interpolate, and the colour of its icon. *)
Record marker : Type := {
  marker_location : val;
  popup_name : val;
  popup_day : val;
  popup_time : val;
  popup_cost_estimate : val;
  tooltip_day : val;
  tooltip_name : val;
  icon_color : string
}.

Definition day_markers (day : val) : exc (list marker) :=
  try* d := getitem day "day" in
  try* day_color := day_color d in
  try* acts := getitem day "activities" in
  try* acts := iter acts in
  for_each (fun act =>
              try* lat := getitem act "latitude" in
              try* lon := getitem act "longitude" in
              try* n := getitem act "name" in
              try* d1 := getitem day "day" in
              try* t := getitem act "time" in
              try* c := getitem act "cost_estimate" in
              try* d2 := getitem day "day" in
              try* n2 := getitem act "name" in
              inl {| marker_location := VList [lat; lon];
                     popup_name := n; popup_day := d1; popup_time := t;
                     popup_cost_estimate := c;
                     tooltip_day := d2; tooltip_name := n2;
                     icon_color := day_color |}) acts.

(** The map handed to [st_folium]: where it opens, its markers, and the
    coordinates given to [fit_bounds]. *)
Record MapView : Type := {
  location : val;
  zoom_start : Z;
  markers : list marker;
  fit_bounds : list val
}.

(** [None] stands for the branch that shows no map. *)
Definition compute_map_view (itinerary_data : val) : exc (option MapView) :=
  try* all_coords := all_coords itinerary_data in
  match all_coords with
  | [] => inl None
  | first :: _ =>
    try* days := getitem itinerary_data "itinerary" in
    try* days := iter days in
    try* per_day := for_each day_markers days in
    inl (Some {| location := first; zoom_start := 12;
                 markers := concat per_day; fit_bounds := all_coords |})
  end.

(** * Vocabulary of the properties *)

(** Concatenation of a list of pieces. *)
Definition cat (l : list string) : string := fold_right String.append "" l.

(** What precedes the interests and what follows the interests line. *)
Definition prompt_opening (destination : string) (days : Z) (budget : string)
  : string :=
  String nl
  ("    You are an expert travel planner specializing in budget travel for college students." +:+
  String nl
  ("    Create a detailed " +:+ str_int days +:+ "-day itinerary for " +:+ destination +:+ "." +:+
  String nl
  ("    " +:+
  String nl
  ("    Constraints & Preferences:" +:+
  String nl
  ("    - Budget Level: " +:+ budget +:+ ". Prioritize free activities, student discounts, street food, and cheap transport." +:+
  String nl
  "    - Interests: "))))).

Definition prompt_closing : string :=
  String nl ("    " +:+
  String nl ("    For every activity, you must provide realistic latitude and longitude coordinates. " +:+
  String nl ("    Ensure locations for a single day are geographically close to minimize transit time and costs." +:+
  String nl "    "))).


(** The coordinate pair of an activity, as the map code builds it. *)
Definition coord (a : Activity) : val :=
  VList [VFloat (latitude a); VFloat (longitude a)].

(** The activities of an itinerary, day after day. *)
Definition all_activities (t : TripItinerary) : list Activity :=
  concat (map activities (itinerary t)).

(** The map opens on the first activity of the first day. *)
Definition opens_on_first_day (t : TripItinerary) (m : MapView) : Prop :=
  exists d a,
    hd_error (itinerary t) = Some d /\ hd_error (activities d) = Some a
    /\ location m = coord a.

(** The marker of activity [a] of day [d], with icon colour [c]. *)
Definition marker_of (d : DailyPlan) (c : string) (a : Activity) : marker :=
  {| marker_location := coord a;
     popup_name := VStr (name a); popup_day := VInt (day d);
     popup_time := VStr (time a); popup_cost_estimate := VStr (cost_estimate a);
     tooltip_day := VInt (day d); tooltip_name := VStr (name a);
     icon_color := c |}.

(** The colour of the markers of a day. *)
Definition color_of_day (d : Z) : string :=
  match palette_color colors d with
  | Some c => c
  | None => ""
  end.

(** A trip whose first day has no activity. *)
Definition trip_late_start : TripItinerary :=
  {| trip_destination := "Goa";
     total_estimated_cost := "5000";
     budget_tips := ["Walk"];
     itinerary :=
       [ {| day := 1; theme := "Arrival"; activities := [] |};
         {| day := 2; theme := "Beaches";
            activities :=
              [ {| name := "Baga Beach"; time := "Morning 09:00 AM";
                   description := "Swim"; cost_estimate := "Free";
                   latitude := FDec false 155552 (-4);
                   longitude := FDec false 737517 (-4) |} ] |} ] |}.

(** A trip that starts on its first day. *)
Definition trip_paris : TripItinerary :=
  {| trip_destination := "Paris, France";
     total_estimated_cost := "12000";
     budget_tips := ["Carnet"; "Picnic"; "Free museums"];
     itinerary :=
       [ {| day := 1; theme := "Left Bank";
            activities :=
              [ {| name := "Louvre"; time := "Morning 09:00 AM";
                   description := "Art"; cost_estimate := "Free";
                   latitude := FDec false 488606 (-4);
                   longitude := FDec false 23376 (-4) |} ] |} ] |}.

(** The two dictionaries [generate_itinerary] returns. *)
Definition success_result (data : val) : list (string * val) :=
  [("status", VStr "success"); ("data", data)].

Definition error_result (message : string) : list (string * val) :=
  [("status", VStr "error"); ("message", VStr message)].

(** The request [generate_itinerary] sends. *)
Definition request_of (api_key destination : string) (days : Z)
    (budget : string) (interests : list string) (notes : string) : request :=
  {| req_api_key := api_key;
     req_model := "gemini-2.5-flash";
     req_prompt := prompt destination days budget interests notes;
     req_response_mime_type := "application/json";
     req_temperature := FDec false 7 (-1) |}.

(** What [generate_itinerary] returns for a reply of the backend. *)
Definition outcome (reply : string + exn) : list (string * val) :=
  match reply with
  | inl text =>
    match Json.loads text with
    | inl v => success_result v
    | inr msg => error_result msg
    end
  | inr (InvalidArgument _) => error_result invalid_key_message
  | inr e => error_result (str_exn e)
  end.

(** The world after one more outbound call. *)
Definition logged (w : world) (r : request) : world :=
  {| session_state := session_state w;
     outbound := outbound w ++ [r];
     shown := shown w |}.

(** The [status] tag of a result. *)
Definition status (result : list (string * val)) : option val :=
  dict_get "status" result.

(** A session before the first run of the script. *)
Definition fresh : world :=
  {| session_state := ∅; outbound := []; shown := [] |}.

(** A text between double quotes. *)
Definition quoted (s : string) : string :=
  String Json.dquote (s +:+ String Json.dquote "").

(** A response that is valid JSON but has no [budget_tips]. *)
Definition payload_without_tips : string :=
  "{" +:+ quoted "destination" +:+ ": " +:+ quoted "Goa" +:+ ", "
      +:+ quoted "total_estimated_cost" +:+ ": " +:+ quoted "5000" +:+ ", "
      +:+ quoted "itinerary" +:+ ": []}".

(** A response whose only activity has a text for latitude. *)
Definition payload_text_latitude : string :=
  "{" +:+ quoted "destination" +:+ ": " +:+ quoted "Goa" +:+ ", "
      +:+ quoted "total_estimated_cost" +:+ ": " +:+ quoted "5000" +:+ ", "
      +:+ quoted "budget_tips" +:+ ": [" +:+ quoted "Walk" +:+ "], "
      +:+ quoted "itinerary" +:+ ": [{" +:+ quoted "day" +:+ ": 1, "
      +:+ quoted "theme" +:+ ": " +:+ quoted "Beaches" +:+ ", "
      +:+ quoted "activities" +:+ ": [{" +:+ quoted "name" +:+ ": " +:+ quoted "Baga Beach" +:+ ", "
      +:+ quoted "time" +:+ ": " +:+ quoted "Morning 09:00 AM" +:+ ", "
      +:+ quoted "description" +:+ ": " +:+ quoted "Swim" +:+ ", "
      +:+ quoted "cost_estimate" +:+ ": " +:+ quoted "Free" +:+ ", "
      +:+ quoted "latitude" +:+ ": " +:+ quoted "15.5552" +:+ ", "
      +:+ quoted "longitude" +:+ ": 73.7517}]}]}".

(** The two entries of the session slot. *)
Definition itinerary_slot (w : world) : option val :=
  session_state w !! "itinerary_data".

Definition error_slot (w : world) : option val :=
  session_state w !! "error_message".

(** An entry holds something when it is set and is not [None]. *)
Definition holds (entry : option val) : Prop :=
  exists v, entry = Some v /\ v <> VNone.

(** The slot never holds an itinerary and an error at once. *)
Definition slot_exclusive (w : world) : Prop :=
  ~ (holds (itinerary_slot w) /\ holds (error_slot w)).

(** The worlds the handler leaves: the slot cleared, a message shown, a
    result stored. *)
Definition reset (w : world) : world :=
  {| session_state := <["error_message" := VNone]>
                        (<["itinerary_data" := VNone]> (session_state w));
     outbound := outbound w;
     shown := shown w |}.

Definition showing (w : world) (e : ui_event) : world :=
  {| session_state := session_state w; outbound := outbound w;
     shown := shown w ++ [e] |}.

Definition stored (w : world) (data message : val) : world :=
  {| session_state := <["error_message" := message]>
                        (<["itinerary_data" := data]> (session_state w));
     outbound := outbound w;
     shown := shown w |}.


(** The credential is absent, empty, or the placeholder. *)
Definition not_configured (k : option string) : Prop :=
  k = None \/ k = Some "" \/ k = Some "your_api_key_here".

Definition configuration_error : ui_event :=
  StError "Please provide a Gemini API Key in the sidebar or `.env` file to proceed.".

(** The worlds a session goes through: a fresh one, then one run of the
    script after the other, each with its own inputs and backend. *)
Inductive reachable : world -> Prop :=
| reachable_fresh : reachable fresh
| reachable_run (backend : request -> string + exn) (i : inputs) (w : world) :
    reachable w -> reachable (snd (script backend i w)).

(** A session that holds the itinerary of an earlier run. *)
Definition holding_paris : world :=
  stored fresh (TripItinerary_dict trip_paris) VNone.

(** Inputs of a run that presses the button. *)
Definition pressed (key : option string) (destination : string) : inputs :=
  {| api_key := key; destination := destination; duration_days := 2;
     budget_level := Budget; interests := ["History"; "Food"];
     additional_notes := ""; generate_btn := true |}.

(** Every dictionary inside [v] holds each key once, as Python
    dictionaries do. *)
Fixpoint unique_keys (v : val) : Prop :=
  match v with
  | VList l => fold_right (fun x p => unique_keys x /\ p) True l
  | VDict d =>
    List.NoDup (map fst d)
    /\ fold_right (fun kv p => unique_keys (snd kv) /\ p) True d
  | _ => True
  end.

(** The fuel that reading [v] back takes: one unit for the value and one
    for each item of an array or object, nested values included. *)
Fixpoint size (v : val) : nat :=
  match v with
  | VList l => S (fold_right (fun x n => S (size x + n)) 0%nat l)
  | VDict d => S (fold_right (fun kv n => S (size (snd kv) + n)) 0%nat d)
  | _ => 1%nat
  end.

(** ** Vocabulary of the decoder proofs *)

Module JsonVocabulary.
Import Json.

(** [s] does not go on with a digit. *)
Definition no_digit (s : string) : Prop :=
  match s with
  | String c _ => digit c = None
  | EmptyString => True
  end.

(** [s] is empty or starts with a comma or a closing bracket. *)
Definition delimited (s : string) : Prop :=
  match s with
  | String c _ => c = ","%char \/ c = "]"%char \/ c = "}"%char
  | EmptyString => True
  end.

(** A numeral without leading zero: not empty, and if it starts with 0
    it is 0. *)
Definition canonical (u : Decimal.uint) : Prop :=
  u <> Decimal.Nil /\ forall u', u = Decimal.D0 u' -> u' = Decimal.Nil.

(** The first character of a numeral is a digit. *)
Definition starts_with_digit (s : string) : Prop :=
  match s with
  | String c _ => exists d, digit c = Some d
  | EmptyString => False
  end.

(** [s] starts like a number: with a minus sign or a digit. *)
Definition starts_numeric (s : string) : Prop :=
  match s with
  | String c _ => c = "-"%char \/ exists d, digit c = Some d
  | EmptyString => False
  end.

(** [s] starts with a character that is neither whitespace nor a
    closing bracket, as every written value does. *)
Definition value_start (s : string) : Prop :=
  match s with
  | String c _ => is_ws c = false /\ c <> "]"%char /\ c <> "}"%char
  | EmptyString => False
  end.

(** The fuel the items of an array take. *)
Definition items_size (l : list val) : nat :=
  fold_right (fun x n => S (size x + n)) 0%nat l.

(** What reading a value back means, for any fuel that covers it and any
    delimited continuation. *)
Definition reads_back (v : val) : Prop :=
  forall fuel rest,
    (size v <= fuel)%nat -> delimited rest ->
    scan_once fuel (dumps v +:+ rest) = Ok v rest.

(** One entry of an object, as written. *)
Definition entry_text (kv : string * val) : string :=
  dumps_str (fst kv) +:+ ": " +:+ dumps (snd kv).

(** The fuel the entries of an object take. *)
Definition entries_size (d : list (string * val)) : nat :=
  fold_right (fun kv n => S (size (snd kv) + n)) 0%nat d.

End JsonVocabulary.

(** * [app.py]: the main UI (lines 118-194)

    What the script puts on the page after the handler, as the list of
    elements in the order of the calls.  A block ([st.expander],
    [st.container], a column) holds the elements written inside it.  An
    exception ends the run; what was written before it stays on the
    page. *)

#[local] Unset Elimination Schemes.
Inductive element : Type :=
| Markdown (body : string)
| ErrorBox (body : string)
| SuccessBox (body : string)
| InfoBox (body : string)
| Write (body : string)
| Divider
| Subheader (body : string)
| Expander (label : string) (body : list element)
| Container (body : list element)
| Column (body : list element)
| FoliumMap (m : MapView).
#[local] Set Elimination Schemes.

(** A rendering step: the elements written, then a value or the
    exception raised. *)
Definition R (A : Type) : Type := list element * (A + exn).

Definition R_ret {A : Type} (a : A) : R A := ([], inl a).

Definition R_bind {A B : Type} (m : R A) (k : A -> R B) : R B :=
  match m with
  | (es, inl a) => let (es', r) := k a in (es ++ es', r)
  | (es, inr e) => (es, inr e)
  end.

Notation "'page*' x ':=' m 'in' k" := (R_bind m (fun x => k))
  (at level 10, x name, m at level 100, k at level 200).
Notation "m ';;>' k" := (R_bind m (fun _ => k))
  (at level 100, k at level 200, right associativity).

Definition emit (e : element) : R unit := ([e], inl tt).

(** A step that writes nothing. *)
Definition quiet {A : Type} (x : exc A) : R A := ([], x).

(** [with block: body]. *)
Definition within {A : Type} (block : list element -> element) (body : R A) : R A :=
  ([block (fst body)], snd body).

Fixpoint R_for {A : Type} (body : A -> R unit) (l : list A) : R unit :=
  match l with
  | [] => R_ret tt
  | x :: l' => body x ;;> R_for body l'
  end.

Section Formatting.

(** [repr] of a float and of a text are Python's own; the page only
    formats them when the payload puts one where the schema has a text
    or the day number. *)
Variable float_repr : float -> string.
Variable str_repr : string -> string.

Fixpoint py_repr (v : val) : string :=
  match v with
  | VNone => "None"
  | VBool true => "True"
  | VBool false => "False"
  | VInt n => str_int n
  | VFloat f => float_repr f
  | VStr s => str_repr s
  | VList l => "[" +:+ join ", " (map py_repr l) +:+ "]"
  | VDict d =>
    "{" +:+ join ", " (map (fun kv => str_repr (fst kv) +:+ ": " +:+ py_repr (snd kv)) d)
        +:+ "}"
  end.

(** [str(v)], which an f-string applies to what it interpolates. *)
Definition py_str (v : val) : string :=
  match v with
  | VStr s => s
  | _ => py_repr v
  end.

(** The texts of a marker (lines 158-159). *)
Definition popup_text (m : marker) : string :=
  "<b>" +:+ py_str (popup_name m) +:+ "</b><br>Day " +:+ py_str (popup_day m)
        +:+ ": " +:+ py_str (popup_time m) +:+ "<br>Cost: "
        +:+ py_str (popup_cost_estimate m).

Definition tooltip_text (m : marker) : string :=
  "Day " +:+ py_str (tooltip_day m) +:+ ": " +:+ py_str (tooltip_name m).

Definition main_title : string :=
  "<h1 class=" +:+ quoted "main-title" +:+ ">AI Travel Planner for Students</h1>".

Definition sub_title : string :=
  "<p class=" +:+ quoted "sub-title"
    +:+ ">Personalized, budget-friendly itineraries powered by Gemini</p>".

(** [st.session_state.name]. *)
Definition session_attr (w : world) (name : string) : exc val :=
  match session_state w !! name with
  | Some v => inl v
  | None => inr (Exception ("st.session_state has no attribute " +:+ name))
  end.

(** Lines 131-133. *)
Definition budget_tips_block (itinerary_data : val) : R unit :=
  within (Expander "💡 Budget Tips for Students")
    (page* tips := quiet (getitem itinerary_data "budget_tips") in
     page* tips := quiet (iter tips) in
     R_for (fun tip => emit (Markdown ("- " +:+ py_str tip))) tips).

(** Lines 137-167. *)
Definition map_block (itinerary_data : val) : R unit :=
  emit (Subheader "📍 Your Trip Highlights") ;;>
  page* view := quiet (compute_map_view itinerary_data) in
  match view with
  | Some m => emit (FoliumMap m)
  | None => emit (InfoBox "No coordinates returned to display on the map.")
  end.

(** Lines 176-178. *)
Definition activity_lines (act : val) : R unit :=
  page* t := quiet (getitem act "time") in
  page* n := quiet (getitem act "name") in
  page* c := quiet (getitem act "cost_estimate") in
  emit (Markdown ("**" +:+ py_str t +:+ "** - " +:+ py_str n +:+ " ("
                    +:+ py_str c +:+ ")")) ;;>
  page* d := quiet (getitem act "description") in
  emit (Markdown ("*" +:+ py_str d +:+ "*")).

(** Lines 174-179. *)
Definition day_block (day : val) : R unit :=
  within Container
    (page* d := quiet (getitem day "day") in
     page* th := quiet (getitem day "theme") in
     emit (Markdown ("### Day " +:+ py_str d +:+ ": " +:+ py_str th)) ;;>
     page* acts := quiet (getitem day "activities") in
     page* acts := quiet (iter acts) in
     R_for activity_lines acts ;;>
     emit (Markdown "---")).

(** Lines 172-179. *)
Definition itinerary_block (itinerary_data : val) : R unit :=
  emit (Subheader "📅 Your Itinerary") ;;>
  page* days := quiet (getitem itinerary_data "itinerary") in
  page* days := quiet (iter days) in
  R_for day_block days.

(** Lines 126-179. *)
Definition itinerary_page (itinerary_data : val) : R unit :=
  page* de := quiet (getitem itinerary_data "destination") in
  emit (SuccessBox ("Trip to " +:+ py_str de +:+ " planned successfully!")) ;;>
  page* c := quiet (getitem itinerary_data "total_estimated_cost") in
  emit (Markdown ("**Estimated Total Cost:** " +:+ py_str c)) ;;>
  budget_tips_block itinerary_data ;;>
  emit Divider ;;>
  map_block itinerary_data ;;>
  emit Divider ;;>
  itinerary_block itinerary_data.

(** Lines 182-194. *)
Definition empty_state : R unit :=
  emit (InfoBox "👈 Fill out the details in the sidebar and click 'Generate Itinerary' to start planning your adventure!") ;;>
  within Column
    (emit (Markdown "### 🎒 Student Focused") ;;>
     emit (Write "Find free museums, student discounts, and cheap eats.")) ;;>
  within Column
    (emit (Markdown "### 💰 Budget Friendly") ;;>
     emit (Write "Strictly budget considerations: hostels, public transport.")) ;;>
  within Column
    (emit (Markdown "### 🗺️ Interactive Maps") ;;>
     emit (Write "See your daily routes and stops on a beautifully rendered map.")).

(** Lines 119-194. *)
Definition main_ui (w : world) : R unit :=
  emit (Markdown main_title) ;;>
  emit (Markdown sub_title) ;;>
  page* error_message := quiet (session_attr w "error_message") in
  if truthy error_message then
    emit (ErrorBox ("Failed to generate itinerary: " +:+ py_str error_message))
  else
    page* itinerary_data := quiet (session_attr w "itinerary_data") in
    if truthy itinerary_data then itinerary_page itinerary_data
    else empty_state.

End Formatting.

(** One run of the whole script: the handler, then the page. *)
Definition run_script (float_repr : float -> string) (str_repr : string -> string)
    (backend : request -> string + exn) (i : inputs) (w : world)
  : world * R unit :=
  let w' := snd (script backend i w) in
  (w', main_ui float_repr str_repr w').

(** ** Vocabulary of the page properties *)

(** The page of a trip, written from the record. *)
Definition activity_entry (a : Activity) : list element :=
  [ Markdown ("**" +:+ time a +:+ "** - " +:+ name a +:+ " ("
                +:+ cost_estimate a +:+ ")");
    Markdown ("*" +:+ description a +:+ "*") ].

Definition day_section (d : DailyPlan) : element :=
  Container
    (Markdown ("### Day " +:+ str_int (day d) +:+ ": " +:+ theme d)
       :: concat (map activity_entry (activities d)) ++ [Markdown "---"]).

Definition trip_map (t : TripItinerary) : element :=
  match all_activities t with
  | [] => InfoBox "No coordinates returned to display on the map."
  | a :: _ =>
    FoliumMap
      {| location := coord a; zoom_start := 12;
         markers := concat (map (fun d => map (marker_of d (color_of_day (day d)))
                                            (activities d)) (itinerary t));
         fit_bounds := map coord (all_activities t) |}
  end.

Definition trip_page (t : TripItinerary) : list element :=
  [ Markdown main_title; Markdown sub_title;
    SuccessBox ("Trip to " +:+ trip_destination t +:+ " planned successfully!");
    Markdown ("**Estimated Total Cost:** " +:+ total_estimated_cost t);
    Expander "💡 Budget Tips for Students"
      (map (fun tip => Markdown ("- " +:+ tip)) (budget_tips t));
    Divider; Subheader "📍 Your Trip Highlights"; trip_map t;
    Divider; Subheader "📅 Your Itinerary" ]
  ++ map day_section (itinerary t).

(** The page shown when the slot holds nothing. *)
Definition empty_page : list element :=
  [ Markdown main_title; Markdown sub_title;
    InfoBox "👈 Fill out the details in the sidebar and click 'Generate Itinerary' to start planning your adventure!";
    Column [ Markdown "### 🎒 Student Focused";
             Write "Find free museums, student discounts, and cheap eats." ];
    Column [ Markdown "### 💰 Budget Friendly";
             Write "Strictly budget considerations: hostels, public transport." ];
    Column [ Markdown "### 🗺️ Interactive Maps";
             Write "See your daily routes and stops on a beautifully rendered map." ] ].

(** The page that reports an error. *)
Definition error_page (message : string) : list element :=
  [ Markdown main_title; Markdown sub_title;
    ErrorBox ("Failed to generate itinerary: " +:+ message) ].

(** Inputs that pass the checks of the handler. *)
Definition ready (i : inputs) (key : string) : Prop :=
  generate_btn i = true /\ api_key i = Some key
  /\ ~ not_configured (Some key) /\ destination i <> "".

(** The request of a run. *)
Definition request_for (i : inputs) (key : string) : request :=
  request_of key (destination i) (duration_days i)
    (budget_text (budget_level i)) (interests i) (additional_notes i).

(** * Properties *)

(** ** Text *)

Lemma append_cons (c : ascii) (a b : string) :
  String c a +:+ b = String c (a +:+ b).
Proof. reflexivity. Qed.

Lemma append_nil_l (a : string) : "" +:+ a = a.
Proof. reflexivity. Qed.

Lemma append_assoc (a b c : string) : (a +:+ b) +:+ c = a +:+ (b +:+ c).
Proof.
  induction a as [|x a IH]; [reflexivity |].
  rewrite !append_cons. now rewrite IH.
Qed.

Lemma append_nil_r (a : string) : a +:+ "" = a.
Proof.
  induction a as [|x a IH]; [reflexivity |].
  rewrite append_cons. now rewrite IH.
Qed.

Lemma has_prefix_app (p s : string) : has_prefix p (p +:+ s) = true.
Proof.
  induction p as [|c p IH]; [reflexivity |].
  rewrite append_cons. cbn [has_prefix].
  now rewrite Ascii.eqb_refl, IH.
Qed.

Lemma contains_here (needle post : string) :
  contains needle (needle +:+ post) = true.
Proof.
  destruct needle as [|c n]; [destruct post; reflexivity |].
  rewrite append_cons. cbn [contains]. rewrite <- append_cons.
  now rewrite has_prefix_app.
Qed.

Lemma contains_skip (needle : string) (c : ascii) (hay : string) :
  contains needle hay = true -> contains needle (String c hay) = true.
Proof. intros H. cbn [contains]. rewrite H. apply orb_true_r. Qed.

Lemma contains_app_r (needle pre hay : string) :
  contains needle hay = true -> contains needle (pre +:+ hay) = true.
Proof.
  intros H. induction pre as [|c pre IH]; [exact H |].
  rewrite append_cons. now apply contains_skip.
Qed.

Lemma contains_infix (needle pre post : string) :
  contains needle (pre +:+ needle +:+ post) = true.
Proof. apply contains_app_r, contains_here. Qed.

Lemma lower_app (a b : string) : lower (a +:+ b) = lower a +:+ lower b.
Proof.
  induction a as [|c a IH]; [reflexivity |].
  rewrite append_cons. cbn [lower]. now rewrite IH, append_cons.
Qed.

(** [str(n)] reads back as [n]. *)
Lemma str_int_denotes (n : Z) :
  option_map Z.of_int (NilZero.int_of_string (str_int n)) = Some n.
Proof.
  unfold str_int.
  rewrite NilZero.isi.
  - simpl. now rewrite DecimalZ.of_to.
  - destruct n; simpl; try discriminate.
    intros [= H]. now apply DecimalPos.Unsigned.to_uint_nonnil in H.
  - destruct n; simpl; try discriminate.
    intros [= H]. now apply DecimalPos.Unsigned.to_uint_nonnil in H.
Qed.

(** ** The prompt *)

(** Locates a piece of a right-nested concatenation. *)
Ltac find_text :=
  repeat first [ apply contains_here | apply contains_app_r | apply contains_skip ].


Lemma prompt_contains_days (destination : string) (days : Z) (budget : string)
    (interests : list string) (notes : string) :
  contains (str_int days) (prompt destination days budget interests notes) = true.
Proof. unfold prompt. find_text. Qed.

Lemma prompt_contains_destination (destination : string) (days : Z)
    (budget : string) (interests : list string) (notes : string) :
  contains destination (prompt destination days budget interests notes) = true.
Proof. unfold prompt. find_text. Qed.

Lemma prompt_contains_budget (destination : string) (days : Z)
    (budget : string) (interests : list string) (notes : string) :
  contains budget (prompt destination days budget interests notes) = true.
Proof. unfold prompt. find_text. Qed.

Lemma prompt_contains_day_clause (destination : string) (days : Z)
    (budget : string) (interests : list string) (notes : string) :
  contains ("Create a detailed " +:+ str_int days +:+ "-day itinerary for "
              +:+ destination +:+ ".")
    (prompt destination days budget interests notes) = true.
Proof.
  unfold prompt.
  apply contains_skip, contains_app_r, contains_skip.
  change "    Create a detailed " with ("    " +:+ "Create a detailed ").
  rewrite (append_assoc "    "). apply contains_app_r.
  match goal with
  | |- contains ?n (?a +:+ ?b +:+ ?c +:+ ?d +:+ ?e +:+ ?r) = true =>
    replace (a +:+ b +:+ c +:+ d +:+ e +:+ r) with (n +:+ r)
      by (now rewrite !append_assoc)
  end.
  apply contains_here.
Qed.

Lemma cat_app (l1 l2 : list string) : cat (l1 ++ l2) = cat l1 +:+ cat l2.
Proof.
  induction l1 as [|x l1 IH]; [reflexivity |].
  cbn [cat fold_right app]. fold (cat (l1 ++ l2)) (cat l1).
  now rewrite IH, append_assoc.
Qed.

Lemma prompt_shape (destination : string) (days : Z) (budget : string)
    (interests : list string) (notes : string) :
  prompt destination days budget interests notes
  = prompt_opening destination days budget +:+ interests_str interests +:+ "."
      +:+ notes_str notes +:+ prompt_closing.
Proof.
  pose (l1 := [String nl "    You are an expert travel planner specializing in budget travel for college students.";
               String nl "    Create a detailed "; str_int days;
               "-day itinerary for "; destination; "."; String nl "    ";
               String nl "    Constraints & Preferences:";
               String nl "    - Budget Level: "; budget;
               ". Prioritize free activities, student discounts, street food, and cheap transport.";
               String nl "    - Interests: "]).
  pose (l2 := [interests_str interests; "."; notes_str notes; prompt_closing]).
  transitivity (cat (l1 ++ l2)); [reflexivity |].
  rewrite cat_app. reflexivity.
Qed.

Lemma contains_cat (l1 : list string) (x : string) (l2 : list string) :
  contains x (cat (l1 ++ x :: l2)) = true.
Proof. rewrite cat_app. apply contains_app_r, contains_here. Qed.

Lemma prompt_default_interests (destination : string) (days : Z)
    (budget notes : string) :
  contains "- Interests: General sightseeing."
    (prompt destination days budget [] notes) = true.
Proof.
  pose (l1 := [String nl "    You are an expert travel planner specializing in budget travel for college students.";
               String nl "    Create a detailed "; str_int days;
               "-day itinerary for "; destination; "."; String nl "    ";
               String nl "    Constraints & Preferences:";
               String nl "    - Budget Level: "; budget;
               ". Prioritize free activities, student discounts, street food, and cheap transport.";
               String nl "    "]).
  pose (l2 := [notes_str notes; prompt_closing]).
  replace (prompt destination days budget [] notes)
    with (cat (l1 ++ "- Interests: General sightseeing." :: l2)) by reflexivity.
  apply contains_cat.
Qed.

Lemma prompt_default_interests_lower (destination : string) (days : Z)
    (budget notes : string) :
  contains "general sightseeing"
    (lower (prompt destination days budget [] notes)) = true.
Proof.
  rewrite prompt_shape, !lower_app. apply contains_infix.
Qed.

(** C8. For valid inputs (a non-empty destination, a day count of at
    least one, a budget tier of the closed enumeration) the prompt holds
    the destination, the decimal numeral of the day count (in the clause
    "Create a detailed N-day itinerary for DESTINATION.") and the text of
    the budget tier verbatim.  Without interests the interests line reads
    the default sightseeing phrase and not an empty rendering; without
    notes the interests line is followed at once by the closing text: no
    notes clause is written. *)
Theorem prompt_embeds_inputs (destination : string) (days : Z)
    (budget : budget_tier) (interests : list string) (notes : string) :
  destination <> "" ->
  1 <= days ->
  let p := prompt destination days (budget_text budget) interests notes in
  contains destination p = true
  /\ contains (str_int days) p = true
  /\ option_map Z.of_int (NilZero.int_of_string (str_int days)) = Some days
  /\ contains ("Create a detailed " +:+ str_int days +:+ "-day itinerary for "
                 +:+ destination +:+ ".") p = true
  /\ contains (budget_text budget) p = true
  /\ (interests = [] ->
      interests_str interests = "General sightseeing"
      /\ interests_str interests <> ""
      /\ contains "- Interests: General sightseeing." p = true
      /\ contains "general sightseeing" (lower p) = true)
  /\ (notes = "" ->
      notes_str notes = ""
      /\ p = prompt_opening destination days (budget_text budget)
             +:+ interests_str interests +:+ "." +:+ prompt_closing).
Proof.
  intros _ _ p. subst p.
  split; [apply prompt_contains_destination |].
  split; [apply prompt_contains_days |].
  split; [apply str_int_denotes |].
  split; [apply prompt_contains_day_clause |].
  split; [apply prompt_contains_budget |].
  split.
  - intros ->. split; [reflexivity |]. split; [discriminate |].
    split; [apply prompt_default_interests | apply prompt_default_interests_lower].
  - intros ->. split; [reflexivity |].
    rewrite prompt_shape. reflexivity.
Qed.

Lemma prompt_embeds_inputs_witness :
  let p := prompt "Paris, France" 2 "Budget" [] "" in
  contains "Paris, France" p = true
  /\ contains "2" p = true
  /\ contains "Budget" p = true
  /\ contains "- Interests: General sightseeing." p = true
  /\ p = prompt_opening "Paris, France" 2 "Budget" +:+ "General sightseeing"
           +:+ "." +:+ prompt_closing.
Proof.
  cbv zeta.
  destruct (prompt_embeds_inputs "Paris, France" 2 Budget [] "")
    as [H1 [H2 [_ [_ [H3 [H4 H5]]]]]]; [discriminate | lia |].
  destruct (H4 eq_refl) as [_ [_ [H6 _]]].
  destruct (H5 eq_refl) as [_ H7].
  repeat split; assumption.
Defined.

(** With notes, the clause follows the interests line. *)
Lemma prompt_with_notes (destination : string) (days : Z) (budget : string)
    (interests : list string) (notes : string) :
  notes <> "" ->
  prompt destination days budget interests notes
  = prompt_opening destination days budget +:+ interests_str interests +:+ "."
      +:+ String nl ("Additional Notes: " +:+ notes) +:+ prompt_closing.
Proof.
  intros H. rewrite prompt_shape. unfold notes_str. cbn [truthy].
  destruct (String.eqb_spec notes ""); [contradiction | reflexivity].
Qed.

(** ** The map *)

Lemma for_each_map {A B C : Type} (f : A -> exc B) (h : C -> A) (g : C -> B)
    (l : list C) :
  (forall x, In x l -> f (h x) = inl (g x)) ->
  for_each f (map h l) = inl (map g l).
Proof.
  induction l as [|x l IH]; intros H; [reflexivity |].
  cbn [for_each map]. rewrite (H x (or_introl eq_refl)). cbn [exc_bind].
  rewrite IH; [reflexivity |]. intros y Hy. apply H. now right.
Qed.

Lemma day_coords_dict (d : DailyPlan) :
  day_coords (DailyPlan_dict d) = inl (map coord (activities d)).
Proof.
  unfold day_coords, DailyPlan_dict. cbn.
  now rewrite (for_each_map _ Activity_dict coord).
Qed.

Lemma concat_map_map {A B C : Type} (f : B -> C) (g : A -> list B) (l : list A) :
  concat (map (fun x => map f (g x)) l) = map f (concat (map g l)).
Proof.
  induction l as [|x l IH]; [reflexivity |].
  cbn [map concat]. now rewrite IH, map_app.
Qed.

Lemma all_coords_dict (t : TripItinerary) :
  all_coords (TripItinerary_dict t) = inl (map coord (all_activities t)).
Proof.
  unfold all_coords, TripItinerary_dict, all_activities. cbn.
  rewrite (for_each_map _ DailyPlan_dict (fun d => map coord (activities d))).
  - cbn. now rewrite concat_map_map.
  - intros d _. apply day_coords_dict.
Qed.

Lemma colors_length : length colors = 19%nat.
Proof. reflexivity. Qed.

Lemma colors_NoDup : List.NoDup colors.
Proof.
  unfold colors.
  repeat (apply List.NoDup_cons; [cbn [In]; intuition discriminate |]).
  apply List.NoDup_nil.
Qed.

Lemma palette_index_bound (palette : list string) (d : Z) :
  palette <> [] ->
  (Z.to_nat ((d - 1) mod Z.of_nat (length palette)) < length palette)%nat.
Proof.
  intros H.
  assert (0 < Z.of_nat (length palette)) by (destruct palette; [contradiction | cbn [length]; lia]).
  pose proof (Z.mod_pos_bound (d - 1) (Z.of_nat (length palette)) ltac:(lia)).
  lia.
Qed.

Lemma palette_color_some (palette : list string) (d : Z) :
  palette <> [] ->
  exists c, palette_color palette d = Some c /\ In c palette.
Proof.
  intros H. unfold palette_color.
  destruct (nth_error palette _) as [c|] eqn:E.
  - exists c. split; [reflexivity |]. eapply nth_error_In, E.
  - apply nth_error_None in E. pose proof (palette_index_bound palette d H). lia.
Qed.

Lemma palette_color_periodic (palette : list string) (d : Z) :
  palette_color palette (d + Z.of_nat (length palette)) = palette_color palette d.
Proof.
  unfold palette_color. destruct palette as [|c p]; [now destruct (Z.to_nat _), (Z.to_nat _) |].
  replace (d + Z.of_nat (length (c :: p)) - 1)
    with (d - 1 + 1 * Z.of_nat (length (c :: p))) by lia.
  rewrite Z.mod_add; [reflexivity | cbn [length]; lia].
Qed.

Lemma day_markers_dict (d : DailyPlan) (c : string) :
  palette_color colors (day d) = Some c ->
  day_markers (DailyPlan_dict d) = inl (map (marker_of d c) (activities d)).
Proof.
  intros Hc. unfold day_markers, DailyPlan_dict. cbn.
  rewrite Hc. cbn.
  now rewrite (for_each_map _ Activity_dict (marker_of d c)).
Qed.

Lemma markers_dict (t : TripItinerary) :
  for_each day_markers (map DailyPlan_dict (itinerary t))
  = inl (map (fun d => map (marker_of d (color_of_day (day d))) (activities d))
           (itinerary t)).
Proof.
  apply for_each_map. intros d _. apply day_markers_dict.
  unfold color_of_day.
  destruct (palette_color_some colors (day d)) as [c [-> _]]; [discriminate | reflexivity].
Qed.

Lemma compute_map_view_dict (t : TripItinerary) :
  compute_map_view (TripItinerary_dict t)
  = inl match all_activities t with
        | [] => None
        | a :: _ =>
          Some {| location := coord a; zoom_start := 12;
                  markers := concat (map (fun d => map (marker_of d (color_of_day (day d)))
                                                     (activities d)) (itinerary t));
                  fit_bounds := map coord (all_activities t) |}
        end.
Proof.
  unfold compute_map_view. rewrite all_coords_dict. cbn [exc_bind].
  destruct (all_activities t) as [|a l] eqn:E; [reflexivity |].
  cbn [map]. unfold TripItinerary_dict. cbn.
  now rewrite markers_dict.
Qed.

(** The claim of C3 fails as stated: on a trip whose first day is empty
    the map still opens, on the first activity of a later day. *)
Lemma map_view_first_day_counterexample :
  (1 <= length (all_activities trip_late_start))%nat
  /\ exists m,
       compute_map_view (TripItinerary_dict trip_late_start) = inl (Some m)
       /\ ~ opens_on_first_day trip_late_start m.
Proof.
  split; [cbn; lia |].
  eexists. split; [reflexivity |].
  intros [d [a [Hd [Ha _]]]].
  cbn in Hd. injection Hd as <-. discriminate Ha.
Qed.

(** C3 (amended). On an itinerary without any activity the map code takes
    the branch that shows no map, and raises nothing.  On an itinerary
    with at least one activity it builds a map that opens on the
    coordinate pair of the first activity in itinerary order, that is the
    first activity of the first day that has one; when the first day has
    an activity, this is the first day's first activity. *)
Theorem map_view_focal_point (t : TripItinerary) :
  match all_activities t with
  | [] => compute_map_view (TripItinerary_dict t) = inl None
  | a :: _ =>
    exists m, compute_map_view (TripItinerary_dict t) = inl (Some m)
              /\ location m = coord a
              /\ fit_bounds m = map coord (all_activities t)
  end
  /\ (forall d a,
        hd_error (itinerary t) = Some d -> hd_error (activities d) = Some a ->
        exists m, compute_map_view (TripItinerary_dict t) = inl (Some m)
                  /\ opens_on_first_day t m).
Proof.
  split.
  - rewrite compute_map_view_dict.
    destruct (all_activities t) as [|a l] eqn:E; [reflexivity |].
    eexists. split; [reflexivity |]. split; reflexivity.
  - intros d a Hd Ha. rewrite compute_map_view_dict.
    unfold all_activities.
    destruct (itinerary t) as [|d' ds] eqn:Et; [discriminate |].
    injection Hd as ->.
    destruct (activities d) as [|a' acts] eqn:Ea; [discriminate |].
    injection Ha as ->.
    cbn [map concat]. rewrite Ea. cbn [app].
    eexists. split; [reflexivity |].
    exists d, a. rewrite Et, Ea. repeat split.
Qed.

Lemma map_view_focal_point_witness :
  (exists m, compute_map_view (TripItinerary_dict trip_late_start) = inl (Some m)
             /\ location m = VList [VFloat (FDec false 155552 (-4));
                                    VFloat (FDec false 737517 (-4))])
  /\ (exists m, compute_map_view (TripItinerary_dict trip_paris) = inl (Some m)
                /\ opens_on_first_day trip_paris m).
Proof.
  split.
  - destruct (proj1 (map_view_focal_point trip_late_start)) as [m [H1 [H2 _]]].
    exists m. split; [exact H1 | exact H2].
  - exact (proj2 (map_view_focal_point trip_paris) _ _ eq_refl eq_refl).
Defined.

(** With the palette of the code, day 17 gets the entry at index 16. *)
Example day_17_color : palette_color colors 17 = Some "gray".
Proof. reflexivity. Qed.

(** C4. For a day number [d >= 1] the colour of the day is the entry of
    the palette at index [(d - 1) mod palette_size]: the index is in
    range, so the lookup succeeds.  The palette is a fixed list of 19
    pairwise distinct colour names (at least 16); the assignment is a
    function of the day number and cycles with the size of the palette;
    with any palette of 16 colours day 17 gets the entry at index 0; and
    every marker of the map carries the colour of its day. *)
Theorem day_color_cycles (d : Z) :
  1 <= d ->
  palette_color colors d
  = nth_error colors (Z.to_nat ((d - 1) mod Z.of_nat (length colors)))
  /\ (exists c, palette_color colors d = Some c /\ In c colors
                /\ day_color (VInt d) = inl c)
  /\ (Z.to_nat ((d - 1) mod Z.of_nat (length colors)) < length colors)%nat
  /\ length colors = 19%nat
  /\ (16 <= length colors)%nat
  /\ List.NoDup colors
  /\ palette_color colors (d + Z.of_nat (length colors)) = palette_color colors d
  /\ (forall palette : list string,
        length palette = 16%nat ->
        palette_color palette 17 = nth_error palette 0)
  /\ (forall t m,
        compute_map_view (TripItinerary_dict t) = inl (Some m) ->
        markers m
        = concat (map (fun p => map (marker_of p (color_of_day (day p)))
                                  (activities p)) (itinerary t))).
Proof.
  intros _.
  split; [reflexivity |].
  split.
  { destruct (palette_color_some colors d) as [c [Hc Hin]]; [discriminate |].
    exists c. split; [exact Hc |]. split; [exact Hin |].
    unfold day_color. now rewrite Hc. }
  split; [apply palette_index_bound; discriminate |].
  split; [reflexivity |].
  split; [rewrite colors_length; lia |].
  split; [apply colors_NoDup |].
  split; [apply palette_color_periodic |].
  split.
  - intros palette H. unfold palette_color. rewrite H. reflexivity.
  - intros t m H. rewrite compute_map_view_dict in H.
    destruct (all_activities t); [discriminate |].
    injection H as <-. reflexivity.
Qed.

Lemma day_color_cycles_witness :
  palette_color colors 20 = nth_error colors 0
  /\ palette_color (firstn 16 colors) 17 = nth_error (firstn 16 colors) 0.
Proof.
  destruct (day_color_cycles 20) as [H1 [_ [_ [_ [_ [_ [_ [H2 _]]]]]]]]; [lia |].
  split; [exact H1 | exact (H2 (firstn 16 colors) eq_refl)].
Defined.

(** ** [generate_itinerary] *)

Section PlannerFacts.

Variable backend : request -> string + exn.
Variables (key destination : string) (days : Z) (budget : string).
Variables (interests : list string) (notes : string).

(** One call: the reply is classified, the request is logged, nothing is
    raised. *)
Lemma generate_itinerary_run (w : world) :
  generate_itinerary backend key destination days budget interests notes w
  = (inl (outcome (backend (request_of key destination days budget interests notes))),
     logged w (request_of key destination days budget interests notes)).
Proof.
  unfold generate_itinerary, try_except, bind, generate_content, json_loads.
  fold (request_of key destination days budget interests notes).
  fold (logged w (request_of key destination days budget interests notes)).
  unfold outcome.
  destruct (backend _) as [text | e].
  - destruct (Json.loads text) as [v | msg]; reflexivity.
  - destruct e; reflexivity.
Qed.

Lemma outcome_shape (reply : string + exn) :
  (exists v, outcome reply = success_result v)
  \/ (exists m, outcome reply = error_result m).
Proof.
  unfold outcome. destruct reply as [text | e].
  - destruct (Json.loads text); [left | right]; eauto.
  - right. destruct e; eauto.
Qed.

End PlannerFacts.

(** The claim of C1 fails as stated: a response that is valid JSON and
    lacks [budget_tips], and one whose activity has a text for latitude,
    are both refused by the schema and both returned as successes. *)
Lemma unvalidated_payload_counterexample :
  (exists v,
     Json.loads payload_without_tips = inl v
     /\ validate_TripItinerary v = None
     /\ fst (generate_itinerary (fun _ => inl payload_without_tips)
               "key" "Goa" 1 "Budget" [] "" fresh)
        = inl (success_result v))
  /\ (exists v,
        Json.loads payload_text_latitude = inl v
        /\ validate_TripItinerary v = None
        /\ fst (generate_itinerary (fun _ => inl payload_text_latitude)
                  "key" "Goa" 1 "Budget" [] "" fresh)
           = inl (success_result v)).
Proof.
  split; eexists; (split; [vm_compute; reflexivity |]);
    (split; [vm_compute; reflexivity |]);
    rewrite generate_itinerary_run; vm_compute; reflexivity.
Qed.

(** C1 (amended). When the text of the response is valid JSON,
    [generate_itinerary] returns a success that carries the value
    [json.loads] gives for it, as it is: the value is not checked against
    the schema. *)
Theorem generate_itinerary_keeps_parsed_payload
    (backend : request -> string + exn) (key destination : string) (days : Z)
    (budget : string) (interests : list string) (notes : string) (w : world)
    (text : string) (v : val) :
  backend (request_of key destination days budget interests notes) = inl text ->
  Json.loads text = inl v ->
  fst (generate_itinerary backend key destination days budget interests notes w)
  = inl (success_result v).
Proof.
  intros Hb Hl. rewrite generate_itinerary_run. cbn [fst].
  unfold outcome. now rewrite Hb, Hl.
Qed.

Lemma generate_itinerary_keeps_parsed_payload_witness :
  fst (generate_itinerary (fun _ => inl "[1, 2]") "key" "Goa" 1 "Budget" [] "" fresh)
  = inl (success_result (VList [VInt 1; VInt 2])).
Proof.
  apply (generate_itinerary_keeps_parsed_payload _ _ _ _ _ _ _ _ "[1, 2]");
    reflexivity.
Defined.

(** The claim of C2 fails as stated: a rejected credential and another
    failure get the same [status] tag, and when the other failure carries
    the text of the credential message the two results are equal. *)
Lemma auth_error_tag_counterexample :
  let rejected : request -> string + exn :=
    fun _ => inr (InvalidArgument "400 API key not valid.") in
  let unavailable : request -> string + exn :=
    fun _ => inr (Exception "503 Service Unavailable") in
  let lookalike : request -> string + exn :=
    fun _ => inr (Exception invalid_key_message) in
  let run b := fst (generate_itinerary b "key" "Goa" 1 "Budget" [] "" fresh) in
  (exists r1 r2, run rejected = inl r1 /\ run unavailable = inl r2
                 /\ status r1 = status r2)
  /\ run rejected = run lookalike.
Proof.
  cbv beta zeta. rewrite !generate_itinerary_run. cbn [fst outcome].
  split; [| reflexivity].
  eexists _, _. split; [reflexivity |]. split; reflexivity.
Qed.

(** C2 (amended). Every call to [generate_itinerary] returns, without
    raising, exactly one of two tagged dictionaries: status "success"
    with the parsed data, or status "error" with a message.  A rejected
    credential gives status "error" like every other failure and is told
    apart by its message only, the fixed credential message. *)
Theorem generate_itinerary_outcomes
    (backend : request -> string + exn) (key destination : string) (days : Z)
    (budget : string) (interests : list string) (notes : string) (w : world) :
  exists r,
    fst (generate_itinerary backend key destination days budget interests notes w)
    = inl r
    /\ ((exists v, r = success_result v /\ status r = Some (VStr "success"))
        \/ (exists m, r = error_result m /\ status r = Some (VStr "error")))
    /\ (forall s,
          backend (request_of key destination days budget interests notes)
          = inr (InvalidArgument s) ->
          r = error_result invalid_key_message)
    /\ (forall e,
          backend (request_of key destination days budget interests notes) = inr e ->
          status r = Some (VStr "error")).
Proof.
  rewrite generate_itinerary_run. cbn [fst]. eexists. split; [reflexivity |].
  split; [| split].
  - destruct (outcome_shape (backend (request_of key destination days budget interests notes)))
      as [[v ->] | [m ->]]; [left | right]; eauto.
  - intros s ->. reflexivity.
  - intros e ->. destruct e; reflexivity.
Qed.

Lemma generate_itinerary_outcomes_witness :
  exists r,
    fst (generate_itinerary (fun _ => inr (InvalidArgument "400 API key not valid."))
           "key" "Goa" 1 "Budget" [] "" fresh) = inl r
    /\ r = error_result invalid_key_message.
Proof.
  destruct (generate_itinerary_outcomes
              (fun _ => inr (InvalidArgument "400 API key not valid."))
              "key" "Goa" 1 "Budget" [] "" fresh) as [r [H1 [_ [H3 _]]]].
  exists r. split; [exact H1 |]. apply (H3 "400 API key not valid."). reflexivity.
Defined.

Example loads_not_json :
  Json.loads "not json" = inr "Expecting value: line 1 column 1 (char 0)".
Proof. reflexivity. Qed.

(** C6. [generate_itinerary] never raises.  When the text of the response
    is not valid JSON it returns the error dictionary whose message is
    that of the decoding error; when the backend call raises an exception
    that is not the credential rejection it returns the error dictionary
    whose message is [str(e)]. *)
Theorem generate_itinerary_reports_failures
    (backend : request -> string + exn) (key destination : string) (days : Z)
    (budget : string) (interests : list string) (notes : string) (w : world) :
  let run :=
    fst (generate_itinerary backend key destination days budget interests notes w) in
  let reply := backend (request_of key destination days budget interests notes) in
  (exists r, run = inl r)
  /\ (forall text msg,
        reply = inl text -> Json.loads text = inr msg ->
        run = inl (error_result msg))
  /\ (forall e,
        reply = inr e -> (forall s, e <> InvalidArgument s) ->
        run = inl (error_result (str_exn e))).
Proof.
  cbv zeta. rewrite generate_itinerary_run. cbn [fst].
  split; [eauto |]. split.
  - intros text msg -> Hl. unfold outcome. now rewrite Hl.
  - intros e -> He. destruct e; try reflexivity. now destruct (He str_e).
Qed.

Lemma generate_itinerary_reports_failures_witness :
  fst (generate_itinerary (fun _ => inl "not json") "key" "Goa" 1 "Budget" [] "" fresh)
  = inl (error_result "Expecting value: line 1 column 1 (char 0)")
  /\ fst (generate_itinerary (fun _ => inr (Exception "503 Service Unavailable"))
            "key" "Goa" 1 "Budget" [] "" fresh)
     = inl (error_result "503 Service Unavailable").
Proof.
  split.
  - apply (proj1 (proj2 (generate_itinerary_reports_failures
                           (fun _ => inl "not json") "key" "Goa" 1 "Budget" [] "" fresh))
             "not json"); reflexivity.
  - apply (proj2 (proj2 (generate_itinerary_reports_failures
                           (fun _ => inr (Exception "503 Service Unavailable"))
                           "key" "Goa" 1 "Budget" [] "" fresh))
             (Exception "503 Service Unavailable")); [reflexivity | discriminate].
Defined.

(** ** The session slot *)

Section SessionFacts.

Variable backend : request -> string + exn.

Lemma state_initialization_run (w : world) :
  exists w',
    state_initialization w = (inl tt, w')
    /\ outbound w' = outbound w /\ shown w' = shown w
    /\ itinerary_slot w' = Some (default VNone (itinerary_slot w))
    /\ error_slot w' = Some (default VNone (error_slot w)).
Proof.
  unfold state_initialization, bind, session_mem, session_set, ret,
    itinerary_slot, error_slot.
  destruct w as [s o sh]. cbn [session_state outbound shown].
  destruct (s !! "itinerary_data") as [x|] eqn:E1;
    destruct (s !! "error_message") as [y|] eqn:E2; cbn;
    rewrite ?lookup_insert_ne by done; rewrite ?E2; cbn;
    eexists; (split; [reflexivity |]); cbn;
    rewrite ?lookup_insert_eq, ?lookup_insert_ne by done;
    rewrite ?lookup_insert_eq, ?E1, ?E2; done.
Qed.

Lemma on_generate_not_configured (i : inputs) (w : world) :
  not_configured (api_key i) ->
  on_generate backend i w = (inl tt, showing (reset w) configuration_error).
Proof.
  unfold on_generate, bind, session_set, show.
  intros [H | [H | H]]; rewrite H; reflexivity.
Qed.

Lemma on_generate_no_destination (i : inputs) (w : world) :
  destination i = "" ->
  on_generate backend i w
  = (inl tt,
     showing (reset w)
       (match api_key i with
        | Some key =>
          if negb (str_truthy key) || String.eqb key "your_api_key_here"
          then configuration_error
          else StWarning "Please enter a destination."
        | None => configuration_error
        end)).
Proof.
  unfold on_generate, bind, session_set, show. intros ->.
  destruct (api_key i) as [key|]; [| reflexivity].
  destruct (negb (str_truthy key) || String.eqb key "your_api_key_here");
    reflexivity.
Qed.

Lemma on_generate_call (i : inputs) (w : world) (key : string) :
  api_key i = Some key ->
  negb (str_truthy key) || String.eqb key "your_api_key_here" = false ->
  str_truthy (destination i) = true ->
  let r := request_of key (destination i) (duration_days i)
             (budget_text (budget_level i)) (interests i) (additional_notes i) in
  on_generate backend i w
  = (inl tt,
     match backend r with
     | inl text =>
       match Json.loads text with
       | inl v => stored (logged (reset w) r) v VNone
       | inr msg => stored (logged (reset w) r) VNone (VStr msg)
       end
     | inr (InvalidArgument _) =>
       stored (logged (reset w) r) VNone (VStr invalid_key_message)
     | inr e => stored (logged (reset w) r) VNone (VStr (str_exn e))
     end).
Proof.
  intros Hk Hc Hd r. unfold on_generate, bind at 1 2.
  cbn [session_set fst snd]. rewrite Hk, Hc, Hd. cbn [negb].
  unfold bind at 1. rewrite generate_itinerary_run.
  fold r. unfold outcome.
  destruct (backend r) as [text | e].
  - destruct (Json.loads text) as [v | msg]; reflexivity.
  - destruct e; reflexivity.
Qed.

End SessionFacts.

Section HandlerFacts.

Variable backend : request -> string + exn.

Lemma not_configured_test (key : string) :
  negb (str_truthy key) || String.eqb key "your_api_key_here" = true
  <-> not_configured (Some key).
Proof.
  unfold not_configured, str_truthy. cbn [truthy]. rewrite negb_involutive.
  rewrite orb_true_iff. split.
  - intros [H | H]; apply String.eqb_eq in H; subst; auto.
  - intros [H | [H | H]]; [discriminate | |]; injection H as ->; auto.
Qed.

(** Either the handler stops before any call, with the slot cleared and
    a message shown, or it makes one call and stores its result; what it
    leaves in the slot does not depend on the world it started from. *)
Lemma on_generate_cases (i : inputs) :
  (exists e, forall w,
      on_generate backend i w = (inl tt, showing (reset w) e))
  \/ (exists r data message,
        (data = VNone \/ message = VNone)
        /\ forall w,
            on_generate backend i w
            = (inl tt, stored (logged (reset w) r) data message)).
Proof.
  destruct (api_key i) as [key|] eqn:Hk.
  - destruct (negb (str_truthy key) || String.eqb key "your_api_key_here") eqn:Hc.
    + left. eexists. intros w. apply on_generate_not_configured.
      rewrite Hk. now apply not_configured_test.
    + destruct (str_truthy (destination i)) eqn:Hd.
      * right.
        pose proof (fun w => on_generate_call backend i w key Hk Hc Hd) as H.
        cbv zeta in H.
        destruct (backend _) as [text | e].
        -- destruct (Json.loads text) as [v | msg]; eauto 10.
        -- destruct e; eauto 10.
      * left. eexists. intros w. apply on_generate_no_destination.
        unfold str_truthy in Hd. cbn [truthy] in Hd.
        apply negb_false_iff in Hd. now apply String.eqb_eq.
  - left. eexists. intros w. apply on_generate_not_configured.
    rewrite Hk. left. reflexivity.
Qed.

Lemma reset_slots (w : world) :
  itinerary_slot (reset w) = Some VNone /\ error_slot (reset w) = Some VNone.
Proof.
  unfold itinerary_slot, error_slot, reset. cbn [session_state].
  split; [now rewrite lookup_insert_ne, lookup_insert_eq | now rewrite lookup_insert_eq].
Qed.

Lemma stored_slots (w : world) (data message : val) :
  itinerary_slot (stored w data message) = Some data
  /\ error_slot (stored w data message) = Some message.
Proof.
  unfold itinerary_slot, error_slot, stored. cbn [session_state].
  split; [now rewrite lookup_insert_ne, lookup_insert_eq | now rewrite lookup_insert_eq].
Qed.

Lemma script_run (i : inputs) (w : world) :
  exists w0,
    state_initialization w = (inl tt, w0)
    /\ outbound w0 = outbound w /\ shown w0 = shown w
    /\ itinerary_slot w0 = Some (default VNone (itinerary_slot w))
    /\ error_slot w0 = Some (default VNone (error_slot w))
    /\ script backend i w
       = if generate_btn i then on_generate backend i w0 else (inl tt, w0).
Proof.
  destruct (state_initialization_run w) as [w0 [H0 [H1 [H2 [H3 H4]]]]].
  exists w0. repeat (split; [assumption |]).
  unfold script, bind. rewrite H0. now destruct (generate_btn i).
Qed.

Lemma exclusive_of_none (w : world) :
  itinerary_slot w = Some VNone \/ error_slot w = Some VNone ->
  slot_exclusive w.
Proof.
  intros [H | H] [[v [Hv Hn]] [v' [Hv' Hn']]]; congruence.
Qed.

Lemma script_never_raises (i : inputs) (w : world) :
  fst (script backend i w) = inl tt.
Proof.
  destruct (script_run i w) as [w0 [_ [_ [_ [_ [_ ->]]]]]].
  destruct (generate_btn i); [| reflexivity].
  destruct (on_generate_cases i) as [[e H] | [r [d [m [_ H]]]]]; now rewrite H.
Qed.

Lemma script_generate_slots (i : inputs) :
  generate_btn i = true ->
  exists data message,
    (data = VNone \/ message = VNone)
    /\ forall w,
        itinerary_slot (snd (script backend i w)) = Some data
        /\ error_slot (snd (script backend i w)) = Some message.
Proof.
  intros Hb.
  destruct (on_generate_cases i) as [[e H] | [r [d [m [Hx H]]]]].
  - exists VNone, VNone. split; [now left |]. intros w.
    destruct (script_run i w) as [w0 [_ [_ [_ [_ [_ ->]]]]]].
    rewrite Hb, H. cbn [snd].
    unfold itinerary_slot, error_slot, showing. cbn [session_state].
    apply reset_slots.
  - exists d, m. split; [exact Hx |]. intros w.
    destruct (script_run i w) as [w0 [_ [_ [_ [_ [_ ->]]]]]].
    rewrite Hb, H. cbn [snd]. apply stored_slots.
Qed.

Lemma script_preserves_exclusive (i : inputs) (w : world) :
  slot_exclusive w -> slot_exclusive (snd (script backend i w)).
Proof.
  intros Hw. destruct (generate_btn i) eqn:Hb.
  - destruct (script_generate_slots i Hb) as [d [m [Hx H]]].
    destruct (H w) as [H1 H2]. apply exclusive_of_none.
    destruct Hx as [-> | ->]; auto.
  - destruct (script_run i w) as [w0 [_ [_ [_ [H3 [H4 ->]]]]]].
    rewrite Hb. cbn [snd].
    intros [[v [Hv Hn]] [v' [Hv' Hn']]]. apply Hw.
    rewrite H3 in Hv. rewrite H4 in Hv'.
    destruct (itinerary_slot w) as [x|]; cbn in Hv; [| congruence].
    destruct (error_slot w) as [y|]; cbn in Hv'; [| congruence].
    split; eexists; split; try reflexivity; congruence.
Qed.

End HandlerFacts.

Lemma fresh_exclusive : slot_exclusive fresh.
Proof. intros [[v [Hv _]] _]. discriminate Hv. Qed.

Lemma reachable_exclusive (w : world) : reachable w -> slot_exclusive w.
Proof.
  intros H. induction H as [| backend i w _ IH]; [apply fresh_exclusive |].
  now apply script_preserves_exclusive.
Qed.

(** With a credential and a destination the handler makes exactly one
    call. *)
Lemma script_calls_once (backend : request -> string + exn) (i : inputs)
    (w : world) (key : string) :
  generate_btn i = true ->
  api_key i = Some key ->
  ~ not_configured (Some key) ->
  destination i <> "" ->
  outbound (snd (script backend i w))
  = outbound w ++ [request_of key (destination i) (duration_days i)
                     (budget_text (budget_level i)) (interests i)
                     (additional_notes i)].
Proof.
  intros Hb Hk Hc Hd.
  destruct (script_run backend i w) as [w0 [_ [Ho [_ [_ [_ ->]]]]]].
  rewrite Hb.
  assert (Hc' : negb (str_truthy key) || String.eqb key "your_api_key_here" = false).
  { destruct (_ || _) eqn:E; [| reflexivity]. now apply not_configured_test in E. }
  assert (Hd' : str_truthy (destination i) = true).
  { unfold str_truthy. cbn [truthy]. apply negb_true_iff.
    now apply String.eqb_neq. }
  pose proof (on_generate_call backend i w0 key Hk Hc' Hd') as H.
  cbv zeta in H. rewrite H. cbn [snd]. rewrite <- Ho.
  destruct (backend _) as [text | e].
  - destruct (Json.loads text); reflexivity.
  - destruct e; reflexivity.
Qed.

(** C5. The session slot never holds an itinerary and an error at once:
    this holds in every world a session reaches, and a run of the script
    raises nothing.  A run that presses the button overwrites the slot:
    what the two entries hold afterwards is the same whatever they held
    before, and at least one of them is [None]; so an itinerary of an
    earlier run is gone, whatever the outcome of the new request. *)
Theorem session_slot_single (backend : request -> string + exn) (i : inputs)
    (w w2 : world) :
  (reachable w -> slot_exclusive w /\ slot_exclusive (snd (script backend i w)))
  /\ fst (script backend i w) = inl tt
  /\ (generate_btn i = true ->
      slot_exclusive (snd (script backend i w))
      /\ itinerary_slot (snd (script backend i w))
         = itinerary_slot (snd (script backend i w2))
      /\ error_slot (snd (script backend i w))
         = error_slot (snd (script backend i w2))
      /\ exists data message,
           itinerary_slot (snd (script backend i w)) = Some data
           /\ error_slot (snd (script backend i w)) = Some message
           /\ (data = VNone \/ message = VNone)).
Proof.
  split.
  { intros H. split; [now apply reachable_exclusive |].
    apply script_preserves_exclusive. now apply reachable_exclusive. }
  split; [apply script_never_raises |].
  intros Hb.
  destruct (script_generate_slots backend i Hb) as [d [m [Hx H]]].
  destruct (H w) as [H1 H2]. destruct (H w2) as [H3 H4].
  split.
  { apply exclusive_of_none. destruct Hx as [-> | ->]; auto. }
  split; [congruence |]. split; [congruence |].
  exists d, m. auto.
Qed.

Lemma session_slot_single_witness :
  let failing : request -> string + exn :=
    fun _ => inr (Exception "503 Service Unavailable") in
  slot_exclusive fresh
  /\ itinerary_slot holding_paris = Some (TripItinerary_dict trip_paris)
  /\ itinerary_slot (snd (script failing (pressed (Some "key") "Paris") holding_paris))
     = itinerary_slot (snd (script failing (pressed (Some "key") "Paris") fresh)).
Proof.
  cbv zeta.
  pose proof (session_slot_single
                (fun _ => inr (Exception "503 Service Unavailable"))
                (pressed (Some "key") "Paris") fresh fresh) as H0.
  pose proof (session_slot_single
                (fun _ => inr (Exception "503 Service Unavailable"))
                (pressed (Some "key") "Paris") holding_paris fresh) as H.
  split; [exact (proj1 (proj1 H0 reachable_fresh)) |].
  split; [reflexivity |].
  destruct H as [_ [_ H]]. destruct (H eq_refl) as [_ [H1 _]]. exact H1.
Defined.

(** C7. When the credential is absent, empty or the placeholder, a run of
    the script makes no outbound call: the log of calls is unchanged.
    When the button is pressed the configuration error is shown and the
    slot is left cleared. *)
Theorem unconfigured_credential_makes_no_call
    (backend : request -> string + exn) (i : inputs) (w : world) :
  not_configured (api_key i) ->
  fst (script backend i w) = inl tt
  /\ outbound (snd (script backend i w)) = outbound w
  /\ (generate_btn i = true ->
      shown (snd (script backend i w)) = shown w ++ [configuration_error]
      /\ itinerary_slot (snd (script backend i w)) = Some VNone
      /\ error_slot (snd (script backend i w)) = Some VNone).
Proof.
  intros Hc. split; [apply script_never_raises |].
  destruct (script_run backend i w) as [w0 [_ [Ho [Hs [_ [_ ->]]]]]].
  rewrite (on_generate_not_configured backend i w0 Hc).
  split.
  - destruct (generate_btn i); cbn [snd]; [| exact Ho]. exact Ho.
  - intros ->. cbn [snd]. split; [cbn [showing shown reset]; now rewrite Hs |].
    apply (reset_slots w0).
Qed.

Lemma unconfigured_credential_makes_no_call_witness :
  outbound (snd (script (fun _ => inl "[]") (pressed (Some "") "Paris") fresh)) = []
  /\ outbound (snd (script (fun _ => inl "[]") (pressed None "Paris") fresh)) = []
  /\ outbound (snd (script (fun _ => inl "[]")
                      (pressed (Some "your_api_key_here") "Paris") fresh)) = []
  /\ shown (snd (script (fun _ => inl "[]") (pressed (Some "") "Paris") fresh))
     = [configuration_error].
Proof.
  split; [| split; [| split]].
  - apply (unconfigured_credential_makes_no_call
             (fun _ => inl "[]") (pressed (Some "") "Paris") fresh).
    right. left. reflexivity.
  - apply (unconfigured_credential_makes_no_call
             (fun _ => inl "[]") (pressed None "Paris") fresh).
    left. reflexivity.
  - apply (unconfigured_credential_makes_no_call
             (fun _ => inl "[]") (pressed (Some "your_api_key_here") "Paris") fresh).
    right. right. reflexivity.
  - destruct (unconfigured_credential_makes_no_call
                (fun _ => inl "[]") (pressed (Some "") "Paris") fresh)
      as [_ [_ H]]; [right; left; reflexivity |].
    exact (proj1 (H eq_refl)).
Defined.

(** C10. When the button is pressed with an empty destination, the run
    makes no call to [generate_itinerary], hence no outbound call, raises
    nothing, and leaves both entries of the slot at [None], whatever they
    held before. *)
Theorem empty_destination_makes_no_call
    (backend : request -> string + exn) (i : inputs) (w : world) :
  generate_btn i = true ->
  destination i = "" ->
  fst (script backend i w) = inl tt
  /\ outbound (snd (script backend i w)) = outbound w
  /\ itinerary_slot (snd (script backend i w)) = Some VNone
  /\ error_slot (snd (script backend i w)) = Some VNone.
Proof.
  intros Hb Hd. split; [apply script_never_raises |].
  destruct (script_run backend i w) as [w0 [_ [Ho [_ [_ [_ ->]]]]]].
  rewrite Hb, (on_generate_no_destination backend i w0 Hd). cbn [snd].
  split; [exact Ho |]. apply (reset_slots w0).
Qed.

Lemma empty_destination_makes_no_call_witness :
  itinerary_slot holding_paris = Some (TripItinerary_dict trip_paris)
  /\ outbound (snd (script (fun _ => inl "[]") (pressed (Some "key") "") holding_paris)) = []
  /\ itinerary_slot (snd (script (fun _ => inl "[]") (pressed (Some "key") "") holding_paris))
     = Some VNone.
Proof.
  split; [reflexivity |].
  destruct (empty_destination_makes_no_call
              (fun _ => inl "[]") (pressed (Some "key") "") holding_paris
              eq_refl eq_refl) as [_ [H1 [H2 _]]].
  split; [exact H1 | exact H2].
Defined.

(** ** Validation of the dictionary form *)

Lemma mapM_map_Some {A : Type} (f : val -> option A) (g : A -> val) (l : list A) :
  (forall x, f (g x) = Some x) -> mapM f (map g l) = Some l.
Proof.
  intros H. induction l as [|x l IH]; [reflexivity |].
  cbn [map mapM]. rewrite H. cbn. rewrite IH. reflexivity.
Qed.

Lemma validate_Activity_dict (a : Activity) :
  validate_Activity (Activity_dict a) = Some a.
Proof. destruct a. reflexivity. Qed.

Lemma validate_DailyPlan_dict (d : DailyPlan) :
  validate_DailyPlan (DailyPlan_dict d) = Some d.
Proof.
  destruct d as [n t acts]. unfold validate_DailyPlan, DailyPlan_dict, field.
  cbn. rewrite (mapM_map_Some _ _ _ validate_Activity_dict). reflexivity.
Qed.

Lemma validate_TripItinerary_dict (t : TripItinerary) :
  validate_TripItinerary (TripItinerary_dict t) = Some t.
Proof.
  destruct t as [de c tips days].
  unfold validate_TripItinerary, TripItinerary_dict, field. cbn.
  rewrite (mapM_map_Some as_str VStr tips) by reflexivity. cbn.
  rewrite (mapM_map_Some _ _ _ validate_DailyPlan_dict). reflexivity.
Qed.

(** ** The decoder reads back what the encoder writes *)

Module JsonFacts.
Import Json JsonVocabulary.

(** *** Text *)

Lemma no_surrogate_step (begin : string) (uni : N) (s3 : string) :
  is_high_surrogate uni = false ->
  match s3 with
  | String b (String u (String g1 (String g2 (String g3 (String g4 s4))))) =>
    if is_high_surrogate uni && Ascii.eqb b backslash && Ascii.eqb u "u"
    then
      match hex4 g1 g2 g3 g4 with
      | None => Fail "Invalid \uXXXX escape" s3
      | Some uni2 =>
        if is_low_surrogate uni2
        then scan_app (utf8 (surrogate_pair uni uni2)) (scanstring begin s4)
        else scan_app (utf8 uni) (scanstring begin s3)
      end
    else scan_app (utf8 uni) (scanstring begin s3)
  | _ => scan_app (utf8 uni) (scanstring begin s3)
  end = scan_app (utf8 uni) (scanstring begin s3).
Proof.
  intros H. rewrite H.
  destruct s3 as [|b [|u [|g1 [|g2 [|g3 [|g4 s4]]]]]]; reflexivity.
Qed.

Lemma scanstring_cons (begin : string) (c : ascii) (s1 : string) :
  scanstring begin (String c s1)
  = if Ascii.eqb c dquote then Ok "" s1
    else if Ascii.eqb c backslash then
      match s1 with
      | EmptyString => Fail "Unterminated string starting at" begin
      | String e s2 =>
        if Ascii.eqb e "u" then
          match s2 with
          | String h1 (String h2 (String h3 (String h4 s3))) =>
            match hex4 h1 h2 h3 h4 with
            | None => Fail "Invalid \uXXXX escape" (String c s1)
            | Some uni =>
              match s3 with
              | String b (String u (String g1 (String g2 (String g3 (String g4 s4))))) =>
                if is_high_surrogate uni && Ascii.eqb b backslash && Ascii.eqb u "u"
                then
                  match hex4 g1 g2 g3 g4 with
                  | None => Fail "Invalid \uXXXX escape" s3
                  | Some uni2 =>
                    if is_low_surrogate uni2
                    then scan_app (utf8 (surrogate_pair uni uni2)) (scanstring begin s4)
                    else scan_app (utf8 uni) (scanstring begin s3)
                  end
                else scan_app (utf8 uni) (scanstring begin s3)
              | _ => scan_app (utf8 uni) (scanstring begin s3)
              end
            end
          | _ => Fail "Invalid \uXXXX escape" (String c s1)
          end
        else
          match unescape e with
          | Some ch => scan_map (String ch) (scanstring begin s2)
          | None => Fail "Invalid \escape" (String c s1)
          end
      end
    else if (N_of_ascii c <? 32)%N then Fail "Invalid control character at" (String c s1)
    else scan_map (String c) (scanstring begin s1).
Proof. reflexivity. Qed.

(** One character, escaped, is read back as itself. *)
Lemma scanstring_escape_char (begin : string) (c : ascii) (rest : string) :
  scanstring begin (escape_char c +:+ rest)
  = scan_map (String c) (scanstring begin rest).
Proof.
  destruct c as [[] [] [] [] [] [] [] []];
    lazy [escape_char Ascii.eqb Bool.eqb dquote backslash N_of_ascii N_of_digits
          N.ltb N.compare N.add N.mul Pos.compare Pos.compare_cont Pos.add Pos.mul
          Pos.succ N.div N.modulo N.div_eucl N.pos_div_eucl N.double N.succ_double
          N.leb N.sub Pos.sub Pos.sub_mask Pos.double_mask Pos.succ_double_mask
          Pos.double_pred_mask Pos.pred_double hex_digit fst snd];
    rewrite ?append_cons, ?append_nil_l;
    try reflexivity.
  all: rewrite scanstring_cons; cbn [Ascii.eqb Bool.eqb dquote backslash andb];
       match goal with
       | |- context [hex4 ?a ?b ?c ?d] =>
         let v := eval vm_compute in (hex4 a b c d) in
         change (hex4 a b c d) with v
       end;
       cbv beta iota; rewrite no_surrogate_step by reflexivity; reflexivity.
Qed.

Lemma scanstring_escape (begin : string) (s rest : string) :
  scanstring begin (escape s +:+ String dquote rest) = Ok s rest.
Proof.
  induction s as [|c s IH]; [reflexivity |].
  cbn [escape]. rewrite append_assoc, scanstring_escape_char, IH. reflexivity.
Qed.

Lemma dumps_str_cons (s rest : string) :
  dumps_str s +:+ rest = String dquote (escape s +:+ String dquote rest).
Proof. unfold dumps_str. now rewrite append_cons, append_assoc. Qed.

(** *** Numbers *)

Lemma delimited_no_digit (s : string) : delimited s -> no_digit s.
Proof.
  destruct s as [|c s]; [easy |]. intros [-> | [-> | ->]]; reflexivity.
Qed.

Lemma scan_digits_no_digit (s : string) :
  no_digit s -> scan_digits s = (Decimal.Nil, s).
Proof. destruct s as [|c s]; [reflexivity |]. cbn. now intros ->. Qed.

Lemma scan_digits_string_of_uint (u : Decimal.uint) (rest : string) :
  no_digit rest ->
  scan_digits (NilEmpty.string_of_uint u +:+ rest) = (u, rest).
Proof.
  intros H. induction u; cbn [NilEmpty.string_of_uint];
    rewrite ?append_cons, ?append_nil_l;
    [now apply scan_digits_no_digit | ..];
    cbn [scan_digits digit]; now rewrite IHu.
Qed.

Lemma to_uint_canonical (n : N) : canonical (N.to_uint n).
Proof.
  assert (H : N.to_uint n = Decimal.unorm (N.to_uint n)).
  { rewrite <- (DecimalN.Unsigned.to_of (N.to_uint n)).
    now rewrite DecimalN.Unsigned.of_to. }
  split.
  - rewrite H. apply DecimalFacts.unorm_nonnil.
  - intros u' E. rewrite E in H. unfold Decimal.unorm in H.
    destruct (Decimal.nzhead (Decimal.D0 u')) eqn:Hz;
      try (injection H as ->; reflexivity);
      try discriminate H.
    exfalso. rewrite <- H in Hz. now apply DecimalFacts.nzhead_nonzero in Hz.
Qed.

Lemma str_N_alt (n : N) : str_N n = NilEmpty.string_of_uint (N.to_uint n).
Proof.
  unfold str_N, NilZero.string_of_uint.
  destruct (N.to_uint n) eqn:E; try reflexivity.
  now destruct (proj1 (to_uint_canonical n)).
Qed.

Lemma scan_integer_canonical (u : Decimal.uint) (rest : string) :
  canonical u -> no_digit rest ->
  scan_integer (NilEmpty.string_of_uint u +:+ rest) = Some (u, rest).
Proof.
  intros [Hn H0] Hr.
  destruct u; [contradiction | ..]; cbn [NilEmpty.string_of_uint];
    rewrite append_cons; unfold scan_integer; cbn [Ascii.eqb Bool.eqb digit].
  1: { rewrite (H0 u eq_refl). reflexivity. }
  all: rewrite <- append_cons;
    match goal with
    | |- Some (scan_digits (String ?c _ +:+ _)) = Some (?D ?u, _) =>
      change (String c (NilEmpty.string_of_uint u))
        with (NilEmpty.string_of_uint (D u))
    end;
    now rewrite scan_digits_string_of_uint.
Qed.

Lemma string_of_uint_starts (u : Decimal.uint) (rest : string) :
  u <> Decimal.Nil -> starts_with_digit (NilEmpty.string_of_uint u +:+ rest).
Proof.
  destruct u; [contradiction | ..]; intros _; cbn [NilEmpty.string_of_uint];
    rewrite append_cons; cbn; eauto.
Qed.

Lemma str_N_starts (n : N) (rest : string) : starts_with_digit (str_N n +:+ rest).
Proof.
  rewrite str_N_alt. apply string_of_uint_starts, to_uint_canonical.
Qed.

Lemma scan_integer_str_N (n : N) (rest : string) :
  no_digit rest -> scan_integer (str_N n +:+ rest) = Some (N.to_uint n, rest).
Proof.
  intros H. rewrite str_N_alt.
  apply scan_integer_canonical; [apply to_uint_canonical | exact H].
Qed.

Lemma str_int_alt (z : Z) :
  str_int z = if z <? 0 then String "-" (str_N (Z.abs_N z)) else str_N (Z.abs_N z).
Proof.
  unfold str_int, str_N. destruct z as [|p|p]; reflexivity.
Qed.

Lemma sign_split_digit (s : string) :
  starts_with_digit s ->
  match s with
  | String "-" t => (true, t)
  | _ => (false, s)
  end = (false, s).
Proof.
  destruct s as [|c t]; [reflexivity |]. intros [d Hd].
  destruct c as [[] [] [] [] [] [] [] []]; try reflexivity; discriminate Hd.
Qed.

Lemma exp_sign_split_digit (s : string) :
  starts_with_digit s ->
  match s with
  | String "-" t => (true, t)
  | String "+" t => (false, t)
  | _ => (false, s)
  end = (false, s).
Proof.
  destruct s as [|c t]; [reflexivity |]. intros [d Hd].
  destruct c as [[] [] [] [] [] [] [] []]; try reflexivity; discriminate Hd.
Qed.

Lemma scan_frac_delimited (rest : string) : delimited rest -> scan_frac rest = None.
Proof.
  destruct rest as [|c s]; [reflexivity |]. intros [-> | [-> | ->]]; reflexivity.
Qed.

Lemma scan_exp_delimited (rest : string) : delimited rest -> scan_exp rest = None.
Proof.
  destruct rest as [|c s]; [reflexivity |]. intros [-> | [-> | ->]]; reflexivity.
Qed.

Lemma of_to_uint (n : N) : N.of_uint (N.to_uint n) = n.
Proof. apply DecimalN.Unsigned.of_to. Qed.

Lemma match_number_int (z : Z) (rest : string) :
  delimited rest ->
  match_number (str_int z +:+ rest) = Some (VInt z, rest).
Proof.
  intros Hr. pose proof (delimited_no_digit rest Hr) as Hd.
  rewrite str_int_alt. unfold match_number.
  destruct (z <? 0) eqn:Hz.
  - rewrite append_cons.
    rewrite scan_integer_str_N, scan_frac_delimited, scan_exp_delimited by assumption.
    rewrite of_to_uint. do 3 f_equal. apply Z.ltb_lt in Hz. lia.
  - rewrite sign_split_digit by apply str_N_starts.
    rewrite scan_integer_str_N, scan_frac_delimited, scan_exp_delimited by assumption.
    rewrite of_to_uint. do 3 f_equal. apply Z.ltb_ge in Hz. lia.
Qed.

Lemma scan_digits_str_N (n : N) (rest : string) :
  no_digit rest -> scan_digits (str_N n +:+ rest) = (N.to_uint n, rest).
Proof. intros H. rewrite str_N_alt. now apply scan_digits_string_of_uint. Qed.

Lemma scan_exp_str_int (e : Z) (rest : string) :
  no_digit rest ->
  scan_exp (String "e" (str_int e +:+ rest)) = Some (e, rest).
Proof.
  intros Hd. unfold scan_exp. cbn [Ascii.eqb Bool.eqb orb].
  rewrite str_int_alt.
  destruct (e <? 0) eqn:Hz.
  - rewrite append_cons, scan_digits_str_N by assumption.
    destruct (N.to_uint (Z.abs_N e)) eqn:E;
      [now destruct (proj1 (to_uint_canonical (Z.abs_N e))) | ..];
      rewrite <- E, of_to_uint; do 2 f_equal; apply Z.ltb_lt in Hz; lia.
  - rewrite exp_sign_split_digit by apply str_N_starts.
    rewrite scan_digits_str_N by assumption.
    destruct (N.to_uint (Z.abs_N e)) eqn:E;
      [now destruct (proj1 (to_uint_canonical (Z.abs_N e))) | ..];
      rewrite <- E, of_to_uint; do 2 f_equal; apply Z.ltb_ge in Hz; lia.
Qed.

Lemma match_number_float (neg : bool) (m : N) (e : Z) (rest : string) :
  delimited rest ->
  match_number (dumps_float (FDec neg m e) +:+ rest)
  = Some (VFloat (FDec neg m e), rest).
Proof.
  intros Hr. pose proof (delimited_no_digit rest Hr) as Hd.
  unfold dumps_float, match_number. rewrite !append_assoc.
  change ("e" +:+ str_int e +:+ rest) with (String "e" (str_int e +:+ rest)).
  destruct neg.
  - rewrite append_cons, append_nil_l. cbv beta iota.
    rewrite scan_integer_str_N by reflexivity.
    cbn [scan_frac]. rewrite scan_exp_str_int by assumption.
    now rewrite of_to_uint.
  - rewrite append_nil_l.
    rewrite sign_split_digit by apply str_N_starts.
    rewrite scan_integer_str_N by reflexivity.
    cbn [scan_frac]. rewrite scan_exp_str_int by assumption.
    now rewrite of_to_uint.
Qed.

(** *** Values *)

Lemma scan_once_number (fuel : nat) (s : string) (v : val) (rest : string) :
  starts_numeric s ->
  match_number s = Some (v, rest) ->
  scan_once (S fuel) s = Ok v rest.
Proof.
  destruct s as [|c t]; [easy |]. intros Hs Hm.
  cbn [scan_once]. 
  destruct c as [[] [] [] [] [] [] [] []];
    try (exfalso; destruct Hs as [Hs | [d Hs]]; discriminate Hs);
    cbn [Ascii.eqb Bool.eqb dquote has_prefix andb]; now rewrite Hm.
Qed.

Lemma starts_numeric_str_int (z : Z) (rest : string) :
  starts_numeric (str_int z +:+ rest).
Proof.
  rewrite str_int_alt. destruct (z <? 0).
  - rewrite append_cons. now left.
  - pose proof (str_N_starts (Z.abs_N z) rest) as H.
    destruct (str_N _ +:+ rest); [easy |]. now right.
Qed.

Lemma scan_once_int (fuel : nat) (z : Z) (rest : string) :
  delimited rest ->
  scan_once (S fuel) (str_int z +:+ rest) = Ok (VInt z) rest.
Proof.
  intros H. apply scan_once_number;
    [apply starts_numeric_str_int | now apply match_number_int].
Qed.

Lemma scan_once_float (fuel : nat) (f : float) (rest : string) :
  delimited rest ->
  scan_once (S fuel) (dumps_float f +:+ rest) = Ok (VFloat f) rest.
Proof.
  intros H. destruct f as [neg m e | | []]; try reflexivity.
  apply scan_once_number; [| now apply match_number_float].
  unfold dumps_float. rewrite !append_assoc. destruct neg.
  - now left.
  - rewrite append_nil_l.
    pose proof (str_N_starts m ("e" +:+ str_int e +:+ rest)) as H'.
    destruct (str_N _ +:+ _); [easy |]. now right.
Qed.

Lemma scan_once_str (fuel : nat) (s rest : string) :
  scan_once (S fuel) (dumps_str s +:+ rest) = Ok (VStr s) rest.
Proof.
  rewrite dumps_str_cons. cbn [scan_once]. rewrite Ascii.eqb_refl.
  now rewrite scanstring_escape.
Qed.

Lemma val_ind' (P : val -> Prop) :
  P VNone ->
  (forall b, P (VBool b)) ->
  (forall n, P (VInt n)) ->
  (forall f, P (VFloat f)) ->
  (forall s, P (VStr s)) ->
  (forall l, Forall P l -> P (VList l)) ->
  (forall d, Forall (fun kv => P (snd kv)) d -> P (VDict d)) ->
  forall v, P v.
Proof.
  intros HN HB HI HF HS HL HD.
  fix IH 1. intros [| b | n | f | s | l | d];
    [apply HN | apply HB | apply HI | apply HF | apply HS | apply HL | apply HD].
  - induction l as [|x l IHl]; constructor; [apply IH | exact IHl].
  - induction d as [|[k x] d IHd]; constructor; [apply IH | exact IHd].
Qed.

Lemma starts_numeric_value_start (s : string) : starts_numeric s -> value_start s.
Proof.
  destruct s as [|c s]; [easy |]. intros [-> | [d Hd]]; [now repeat split |].
  destruct c as [[] [] [] [] [] [] [] []]; try discriminate Hd; now repeat split.
Qed.

Lemma dumps_value_start (v : val) (rest : string) : value_start (dumps v +:+ rest).
Proof.
  destruct v as [| [] | n | f | s | l | d]; try (now repeat split).
  - apply starts_numeric_value_start, starts_numeric_str_int.
  - destruct f as [neg m e | | []]; try (now repeat split).
    apply starts_numeric_value_start. unfold dumps, dumps_float.
    rewrite !append_assoc. destruct neg; [now left |].
    rewrite append_nil_l.
    pose proof (str_N_starts m ("e" +:+ str_int e +:+ rest)) as H'.
    destruct (str_N _ +:+ _); [easy |]. now right.
Qed.

Lemma skip_ws_value_start (s : string) : value_start s -> skip_ws s = s.
Proof. destruct s as [|c s]; [easy |]. intros [H _]. cbn. now rewrite H. Qed.

Lemma skip_ws_dumps (v : val) (rest : string) :
  skip_ws (dumps v +:+ rest) = dumps v +:+ rest.
Proof. apply skip_ws_value_start, dumps_value_start. Qed.

Lemma skip_ws_delimited (s : string) : delimited s -> skip_ws s = s.
Proof.
  destruct s as [|c s]; [reflexivity |]. intros [-> | [-> | ->]]; reflexivity.
Qed.

Lemma delimited_comma (s : string) : delimited (String "," s).
Proof. now left. Qed.

Lemma delimited_bracket (s : string) : delimited (String "]" s).
Proof. right. now left. Qed.

Lemma delimited_brace (s : string) : delimited (String "}" s).
Proof. right. now right. Qed.

Ltac side :=
  first [ lia | apply delimited_comma | apply delimited_bracket
        | apply delimited_brace ].

(** *** Arrays *)

Lemma join_cons2 (sep x y : string) (l : list string) :
  join sep (x :: y :: l) = x +:+ sep +:+ join sep (y :: l).
Proof. reflexivity. Qed.

Lemma array_items_reads_back (l : list val) :
  Forall reads_back l -> l <> [] ->
  forall fuel rest,
    (items_size l <= fuel)%nat ->
    array_items fuel (join ", " (map dumps l) +:+ String "]" rest) = Ok l rest.
Proof.
  induction l as [|x l IH]; [easy |]. intros Hall _ fuel rest Hf.
  apply Forall_cons_iff in Hall as [Hx Hl].
  cbn [items_size fold_right] in Hf. fold (items_size l) in Hf.
  destruct fuel as [|fuel]; [lia |]. cbn [array_items].
  destruct l as [|y l].
  - cbn [map join].
    rewrite (Hx fuel (String "]" rest)) by side.
    reflexivity.
  - cbn [map]. rewrite join_cons2, !append_assoc.
    rewrite (Hx fuel) by side.
    rewrite 2!append_cons, append_nil_l.
    cbn [skip_ws is_ws].
    change (dumps y :: map dumps l) with (map dumps (y :: l)).
    assert (Hv : value_start (join ", " (map dumps (y :: l)) +:+ String "]" rest)).
    { cbn [map]. destruct l as [|z l].
      - cbn [join map]. apply dumps_value_start.
      - cbn [map]. rewrite join_cons2, append_assoc. apply dumps_value_start. }
    rewrite (skip_ws_value_start _ Hv).
    rewrite IH; [reflexivity | exact Hl | discriminate | lia].
Qed.

(** *** Objects *)

Lemma object_items_reads_back (d : list (string * val)) :
  Forall (fun kv => reads_back (snd kv)) d -> d <> [] ->
  forall fuel rest,
    (entries_size d <= fuel)%nat ->
    exists tail,
      join ", " (map entry_text d) +:+ String "}" rest = String dquote tail
      /\ forall begin, object_items fuel begin tail = Ok d rest.
Proof.
  induction d as [|[k v] d IH]; [easy |]. intros Hall _ fuel rest Hf.
  apply Forall_cons_iff in Hall as [Hv Hd]. cbn [snd] in Hv.
  cbn [entries_size fold_right snd] in Hf. fold (entries_size d) in Hf.
  destruct fuel as [|fuel]; [lia |].
  destruct d as [|kv d].
  - cbn [map join]. unfold entry_text at 1. cbn [fst snd].
    rewrite !append_assoc, dumps_str_cons.
    eexists. split; [reflexivity |]. intros begin.
    cbn [object_items]. rewrite scanstring_escape.
    rewrite 2!append_cons, append_nil_l. cbn [skip_ws is_ws].
    rewrite skip_ws_dumps, (Hv fuel) by side. reflexivity.
  - cbn [map]. rewrite join_cons2. unfold entry_text at 1. cbn [fst snd].
    rewrite !append_assoc, dumps_str_cons.
    eexists. split; [reflexivity |]. intros begin.
    cbn [object_items]. rewrite scanstring_escape.
    rewrite 2!append_cons, append_nil_l. cbn [skip_ws is_ws].
    rewrite skip_ws_dumps, (Hv fuel) by side.
    rewrite 2!append_cons, append_nil_l. cbn [skip_ws is_ws].
    change (entry_text kv :: map entry_text d) with (map entry_text (kv :: d)).
    destruct (IH Hd ltac:(discriminate) fuel rest ltac:(lia)) as [tail [Ht Hr]].
    rewrite Ht. cbn [skip_ws is_ws dquote Ascii.eqb Bool.eqb].
    rewrite Hr. reflexivity.
Qed.

Lemma dict_set_fresh (k : string) (v : val) (d : list (string * val)) :
  ~ In k (map fst d) -> dict_set k v d = d ++ [(k, v)].
Proof.
  induction d as [|[k' v'] d IH]; [reflexivity |]. intros H.
  cbn [dict_set]. destruct (String.eqb_spec k k') as [-> | _].
  - exfalso. apply H. now left.
  - cbn [app]. rewrite IH; [reflexivity |]. intros Hin. apply H. now right.
Qed.

Lemma dict_of_pairs_acc (pairs acc : list (string * val)) :
  List.NoDup (map fst (acc ++ pairs)) ->
  fold_left (fun d kv => dict_set (fst kv) (snd kv) d) pairs acc = acc ++ pairs.
Proof.
  revert acc. induction pairs as [|[k v] pairs IH]; intros acc H.
  - now rewrite app_nil_r.
  - cbn [fold_left fst snd].
    rewrite dict_set_fresh.
    + rewrite IH; rewrite <- app_assoc; [reflexivity | exact H].
    + rewrite map_app in H. apply List.NoDup_remove_2 in H.
      intros Hin. apply H. apply in_or_app. now left.
Qed.

Lemma dict_of_pairs_unique (d : list (string * val)) :
  List.NoDup (map fst d) -> dict_of_pairs d = d.
Proof. intros H. apply (dict_of_pairs_acc d []). exact H. Qed.

(** *** Every value *)

Lemma unique_keys_list (l : list val) :
  unique_keys (VList l) <-> Forall unique_keys l.
Proof.
  cbn [unique_keys]. induction l as [|x l IH]; cbn [fold_right].
  - split; [constructor | easy].
  - rewrite Forall_cons_iff, IH. reflexivity.
Qed.

Lemma unique_keys_dict (d : list (string * val)) :
  unique_keys (VDict d)
  <-> List.NoDup (map fst d) /\ Forall (fun kv => unique_keys (snd kv)) d.
Proof.
  cbn [unique_keys]. apply and_iff_compat_l.
  induction d as [|x d IH]; cbn [fold_right].
  - split; [constructor | easy].
  - rewrite Forall_cons_iff, IH. reflexivity.
Qed.

Lemma Forall_combine {A : Type} (P Q : A -> Prop) (l : list A) :
  Forall (fun x => P x -> Q x) l -> Forall P l -> Forall Q l.
Proof.
  induction l as [|x l IH]; intros H1 H2; constructor;
    apply Forall_cons_iff in H1 as [? ?]; apply Forall_cons_iff in H2 as [? ?]; auto.
Qed.

Lemma scan_once_dumps (v : val) : unique_keys v -> reads_back v.
Proof.
  induction v as [| b | n | f | s | l IH | d IH] using val_ind'; intros Hu fuel rest Hf Hr;
    (destruct fuel as [|fuel]; [cbn [size] in Hf; lia |]).
  - reflexivity.
  - destruct b; reflexivity.
  - now apply scan_once_int.
  - now apply scan_once_float.
  - apply scan_once_str.
  - apply unique_keys_list in Hu.
    pose proof (Forall_combine _ _ _ IH Hu) as Hall.
    cbn [size] in Hf. fold (items_size l) in Hf.
    cbn [dumps]. rewrite !append_assoc, append_cons, append_nil_l.
    change ("]" +:+ rest) with (String "]" rest).
    destruct l as [|x l]; [reflexivity |].
    cbn [scan_once Ascii.eqb Bool.eqb dquote].
    assert (Hv : value_start (join ", " (map dumps (x :: l)) +:+ String "]" rest)).
    { cbn [map]. destruct l as [|z l].
      - cbn [join map]. apply dumps_value_start.
      - cbn [map]. rewrite join_cons2, append_assoc. apply dumps_value_start. }
    rewrite (skip_ws_value_start _ Hv).
    rewrite array_items_reads_back; [| exact Hall | discriminate | lia].
    destruct (join _ _ +:+ _) as [|c t]; [easy |].
    destruct Hv as [_ [Hc _]].
    destruct c as [[] [] [] [] [] [] [] []]; try reflexivity. now destruct Hc.
  - apply unique_keys_dict in Hu as [Hk Hu].
    pose proof (Forall_combine _ _ _ IH Hu) as Hall.
    cbn [size] in Hf. fold (entries_size d) in Hf.
    cbn [dumps]. fold entry_text.
    change (fun kv : string * val => dumps_str (fst kv) +:+ ": " +:+ dumps (snd kv))
      with entry_text.
    rewrite !append_assoc, append_cons, append_nil_l.
    change ("}" +:+ rest) with (String "}" rest).
    destruct d as [|kv d]; [reflexivity |].
    destruct (object_items_reads_back (kv :: d) Hall ltac:(discriminate) fuel rest
                ltac:(lia)) as [tail [Ht Hr']].
    cbn [scan_once Ascii.eqb Bool.eqb dquote]. rewrite Ht.
    cbn [skip_ws is_ws dquote Ascii.eqb Bool.eqb]. rewrite Hr'.
    cbn [scan_map]. now rewrite dict_of_pairs_unique.
Qed.

(** *** The whole document *)

Lemma length_append (a b : string) :
  String.length (a +:+ b) = (String.length a + String.length b)%nat.
Proof.
  induction a as [|c a IH]; [reflexivity |].
  rewrite append_cons. cbn [String.length]. now rewrite IH.
Qed.

Lemma value_start_length (s : string) : value_start s -> (1 <= String.length s)%nat.
Proof. destruct s; [easy |]. cbn. lia. Qed.

Lemma dumps_nonempty (v : val) : (1 <= String.length (dumps v))%nat.
Proof.
  rewrite <- (append_nil_r (dumps v)).
  apply value_start_length, dumps_value_start.
Qed.

Lemma items_size_length (l : list val) :
  Forall (fun x => (size x <= String.length (dumps x))%nat) l ->
  (items_size l <= String.length (join ", " (map dumps l)) + 1)%nat.
Proof.
  induction l as [|x l IH]; intros H; [cbn; lia |].
  apply Forall_cons_iff in H as [Hx Hl]. specialize (IH Hl).
  cbn [items_size fold_right]. fold (items_size l).
  destruct l as [|y l].
  - cbn [map join items_size fold_right]. lia.
  - cbn [map]. rewrite join_cons2, !length_append.
    cbn [map] in IH. cbn [String.length]. lia.
Qed.

Lemma entries_size_length (d : list (string * val)) :
  Forall (fun kv => (size (snd kv) <= String.length (dumps (snd kv)))%nat) d ->
  (entries_size d <= String.length (join ", " (map entry_text d)) + 1)%nat.
Proof.
  induction d as [|x d IH]; intros H; [cbn; lia |].
  apply Forall_cons_iff in H as [Hx Hd]. specialize (IH Hd).
  cbn [entries_size fold_right]. fold (entries_size d).
  destruct d as [|y d].
  - cbn [map join entries_size fold_right]. unfold entry_text.
    rewrite !length_append. lia.
  - cbn [map]. rewrite join_cons2, !length_append.
    cbn [map] in IH. unfold entry_text at 1. rewrite !length_append.
    cbn [String.length]. lia.
Qed.

Lemma size_length (v : val) : (size v <= String.length (dumps v))%nat.
Proof.
  induction v as [| b | n | f | s | l IH | d IH] using val_ind';
    try apply dumps_nonempty.
  - cbn [size dumps]. fold (items_size l). rewrite !length_append.
    pose proof (items_size_length l IH). cbn [String.length]. lia.
  - cbn [size dumps]. fold (entries_size d).
    change (fun kv : string * val => dumps_str (fst kv) +:+ ": " +:+ dumps (snd kv))
      with entry_text.
    rewrite !length_append.
    pose proof (entries_size_length d IH). cbn [String.length]. lia.
Qed.

(** [json.loads(json.dumps(v))] is [v]. *)
Lemma loads_dumps (v : val) : unique_keys v -> loads (dumps v) = inl v.
Proof.
  intros Hu. unfold loads.
  rewrite <- (append_nil_r (dumps v)) at 2.
  rewrite skip_ws_dumps.
  rewrite (scan_once_dumps v Hu); [reflexivity | | exact I].
  pose proof (size_length v). lia.
Qed.

End JsonFacts.

(** ** The wire form *)

Lemma unique_keys_list_map {A : Type} (f : A -> val) (l : list A) :
  (forall a, unique_keys (f a)) -> unique_keys (VList (map f l)).
Proof.
  intros H. cbn [unique_keys].
  induction l as [|a l IH]; cbn [map fold_right]; [exact I | split; auto].
Qed.

Ltac distinct_keys :=
  cbn [map fst];
  repeat (apply List.NoDup_cons; [cbn [In]; intuition discriminate |]);
  apply List.NoDup_nil.

Lemma unique_keys_Activity_dict (a : Activity) : unique_keys (Activity_dict a).
Proof.
  unfold Activity_dict. cbn [unique_keys fold_right snd].
  split; [distinct_keys | tauto].
Qed.

Lemma unique_keys_DailyPlan_dict (d : DailyPlan) : unique_keys (DailyPlan_dict d).
Proof.
  pose proof (unique_keys_list_map Activity_dict (activities d)
                unique_keys_Activity_dict) as H.
  unfold DailyPlan_dict.
  change (List.NoDup (map fst [("day", VInt (day d)); ("theme", VStr (theme d));
                               ("activities", VList (map Activity_dict (activities d)))])
          /\ (True /\ True
              /\ unique_keys (VList (map Activity_dict (activities d))) /\ True)).
  split; [distinct_keys | tauto].
Qed.

Lemma unique_keys_TripItinerary_dict (t : TripItinerary) :
  unique_keys (TripItinerary_dict t).
Proof.
  pose proof (unique_keys_list_map DailyPlan_dict (itinerary t)
                unique_keys_DailyPlan_dict) as H.
  pose proof (unique_keys_list_map VStr (budget_tips t) (fun _ => I)) as H'.
  unfold TripItinerary_dict.
  change (List.NoDup (map fst [("destination", VStr (trip_destination t));
                               ("total_estimated_cost", VStr (total_estimated_cost t));
                               ("budget_tips", VList (map VStr (budget_tips t)));
                               ("itinerary", VList (map DailyPlan_dict (itinerary t)))])
          /\ (True /\ True
              /\ unique_keys (VList (map VStr (budget_tips t)))
              /\ unique_keys (VList (map DailyPlan_dict (itinerary t))) /\ True)).
  split; [distinct_keys | tauto].
Qed.

(** C9. Decoding the wire JSON form of a [TripItinerary] gives back the
    record itself: the text parses, the parsed dictionary is the
    dictionary of the record, and validation rebuilds the record, with
    the order of the days, the order of the activities of each day and
    every field value as they were. *)
Theorem TripItinerary_round_trip (t : TripItinerary) :
  decode_TripItinerary (encode_TripItinerary t) = Some t
  /\ Json.loads (encode_TripItinerary t) = inl (TripItinerary_dict t)
  /\ validate_TripItinerary (TripItinerary_dict t) = Some t.
Proof.
  assert (H : Json.loads (encode_TripItinerary t) = inl (TripItinerary_dict t)).
  { apply JsonFacts.loads_dumps, unique_keys_TripItinerary_dict. }
  split; [| split; [exact H | apply validate_TripItinerary_dict]].
  unfold decode_TripItinerary. rewrite H. apply validate_TripItinerary_dict.
Qed.

Example round_trip_paris :
  decode_TripItinerary (encode_TripItinerary trip_paris) = Some trip_paris.
Proof. vm_compute. reflexivity. Qed.

(** * Further properties *)

(** ** One request per call *)

(** Whatever the backend replies, a call to [generate_itinerary] sends
    exactly one request, built from its arguments with the fixed model,
    output type and temperature, and touches neither the session nor the
    messages shown. *)
Theorem generate_itinerary_one_request
    (backend : request -> string + exn) (key destination : string) (days : Z)
    (budget : string) (interests : list string) (notes : string) (w : world) :
  let w' := snd (generate_itinerary backend key destination days budget
                   interests notes w) in
  outbound w'
  = outbound w
    ++ [ {| req_api_key := key;
            req_model := "gemini-2.5-flash";
            req_prompt := prompt destination days budget interests notes;
            req_response_mime_type := "application/json";
            req_temperature := FDec false 7 (-1) |} ]
  /\ session_state w' = session_state w
  /\ shown w' = shown w.
Proof.
  cbv zeta. rewrite generate_itinerary_run. repeat split.
Qed.

Lemma script_calls_once_witness :
  outbound (snd (script (fun _ => inr (Exception "503 Service Unavailable"))
                   (pressed (Some "key") "Paris") fresh))
  = [request_of "key" "Paris" 2 "Budget" ["History"; "Food"] ""].
Proof.
  apply (script_calls_once (fun _ => inr (Exception "503 Service Unavailable"))
           (pressed (Some "key") "Paris") fresh "key");
    try reflexivity.
  - intros [H | [H | H]]; discriminate H.
  - discriminate.
Defined.

(** ** What the handler stores *)

Section StoreFacts.

Variable backend : request -> string + exn.
Variables (i : inputs) (w : world) (key : string).

Hypothesis pressed_button : generate_btn i = true.
Hypothesis has_key : api_key i = Some key.
Hypothesis configured : ~ not_configured (Some key).
Hypothesis has_destination : destination i <> "".

Let r := request_of key (destination i) (duration_days i)
           (budget_text (budget_level i)) (interests i) (additional_notes i).

Lemma script_stores_outcome :
  exists w0,
    snd (script backend i w)
    = match outcome (backend r) with
      | [("status", VStr "success"); ("data", v)] =>
        stored (logged (reset w0) r) v VNone
      | [("status", VStr "error"); ("message", m)] =>
        stored (logged (reset w0) r) VNone m
      | _ => w0
      end.
Proof.
  destruct (script_run backend i w) as [w0 [_ [_ [_ [_ [_ ->]]]]]].
  exists w0. rewrite pressed_button.
  assert (Hc : negb (str_truthy key) || String.eqb key "your_api_key_here" = false).
  { destruct (_ || _) eqn:E; [| reflexivity]. now apply not_configured_test in E. }
  assert (Hd : str_truthy (destination i) = true).
  { unfold str_truthy. cbn [truthy]. apply negb_true_iff.
    now apply String.eqb_neq. }
  pose proof (on_generate_call backend i w0 key has_key Hc Hd) as H.
  cbv zeta in H. fold r in H. rewrite H. cbn [snd]. unfold outcome.
  destruct (backend r) as [text | e].
  - destruct (Json.loads text); reflexivity.
  - destruct e; reflexivity.
Qed.

Lemma script_slots_of_outcome :
  (forall v, outcome (backend r) = success_result v ->
             itinerary_slot (snd (script backend i w)) = Some v
             /\ error_slot (snd (script backend i w)) = Some VNone)
  /\ (forall m, outcome (backend r) = error_result m ->
                itinerary_slot (snd (script backend i w)) = Some VNone
                /\ error_slot (snd (script backend i w)) = Some (VStr m)).
Proof.
  destruct script_stores_outcome as [w0 ->].
  split; intros x ->; unfold success_result, error_result; cbv beta iota;
    apply stored_slots.
Qed.

End StoreFacts.

(** With a credential and a destination, a response whose text is valid
    JSON leaves the parsed value in the itinerary entry and [None] in the
    error entry. *)
Theorem script_stores_parsed_payload
    (backend : request -> string + exn) (i : inputs) (w : world) (key : string)
    (text : string) (v : val) :
  generate_btn i = true ->
  api_key i = Some key ->
  ~ not_configured (Some key) ->
  destination i <> "" ->
  backend (request_of key (destination i) (duration_days i)
             (budget_text (budget_level i)) (interests i) (additional_notes i))
  = inl text ->
  Json.loads text = inl v ->
  itinerary_slot (snd (script backend i w)) = Some v
  /\ error_slot (snd (script backend i w)) = Some VNone.
Proof.
  intros Hb Hk Hc Hd Hr Hl.
  apply (proj1 (script_slots_of_outcome backend i w key Hb Hk Hc Hd)).
  unfold outcome. now rewrite Hr, Hl.
Qed.

Lemma script_stores_parsed_payload_witness :
  itinerary_slot (snd (script (fun _ => inl "[1, 2]") (pressed (Some "key") "Paris") fresh))
  = Some (VList [VInt 1; VInt 2]).
Proof.
  refine (proj1 (script_stores_parsed_payload (fun _ => inl "[1, 2]")
                   (pressed (Some "key") "Paris") fresh "key" "[1, 2]" _
                   eq_refl eq_refl _ _ eq_refl eq_refl)).
  - intros [H | [H | H]]; discriminate H.
  - discriminate.
Defined.

(** With a credential and a destination, a failed request leaves [None]
    in the itinerary entry and a message in the error entry: the fixed
    credential message when the backend raises [InvalidArgument],
    whatever that exception says; [str(e)] for any other exception; the
    message of the decoding error when the text is not valid JSON. *)
Theorem script_stores_failure_message
    (backend : request -> string + exn) (i : inputs) (w : world) (key : string) :
  generate_btn i = true ->
  api_key i = Some key ->
  ~ not_configured (Some key) ->
  destination i <> "" ->
  let reply := backend (request_of key (destination i) (duration_days i)
                          (budget_text (budget_level i)) (interests i)
                          (additional_notes i)) in
  let w' := snd (script backend i w) in
  (forall s, reply = inr (InvalidArgument s) ->
             itinerary_slot w' = Some VNone
             /\ error_slot w' = Some (VStr invalid_key_message))
  /\ (forall e, reply = inr e -> (forall s, e <> InvalidArgument s) ->
                itinerary_slot w' = Some VNone
                /\ error_slot w' = Some (VStr (str_exn e)))
  /\ (forall text msg, reply = inl text -> Json.loads text = inr msg ->
                       itinerary_slot w' = Some VNone
                       /\ error_slot w' = Some (VStr msg)).
Proof.
  intros Hb Hk Hc Hd reply w'. subst reply w'.
  pose proof (proj2 (script_slots_of_outcome backend i w key Hb Hk Hc Hd)) as H.
  split; [| split].
  - intros s Hr. apply H. unfold outcome. now rewrite Hr.
  - intros e Hr He. apply H. unfold outcome. rewrite Hr.
    destruct e; try reflexivity. now destruct (He str_e).
  - intros text msg Hr Hl. apply H. unfold outcome. now rewrite Hr, Hl.
Qed.

Lemma script_stores_failure_message_witness :
  error_slot (snd (script (fun _ => inr (InvalidArgument "400 API key not valid."))
                     (pressed (Some "key") "Paris") holding_paris))
  = Some (VStr invalid_key_message)
  /\ itinerary_slot (snd (script (fun _ => inr (Exception "503 Service Unavailable"))
                            (pressed (Some "key") "Paris") holding_paris))
     = Some VNone
  /\ error_slot (snd (script (fun _ => inl "not json")
                        (pressed (Some "key") "Paris") holding_paris))
     = Some (VStr "Expecting value: line 1 column 1 (char 0)").
Proof.
  assert (Hc : ~ not_configured (Some "key"))
    by (intros [H | [H | H]]; discriminate H).
  assert (Hd : destination (pressed (Some "key") "Paris") <> "") by discriminate.
  split; [| split].
  - exact (proj2 (proj1 (script_stores_failure_message
                           (fun _ => inr (InvalidArgument "400 API key not valid."))
                           (pressed (Some "key") "Paris") holding_paris "key"
                           eq_refl eq_refl Hc Hd)
                    "400 API key not valid." eq_refl)).
  - refine (proj1 (proj1 (proj2 (script_stores_failure_message
                           (fun _ => inr (Exception "503 Service Unavailable"))
                           (pressed (Some "key") "Paris") holding_paris "key"
                           eq_refl eq_refl Hc Hd))
                    (Exception "503 Service Unavailable") eq_refl _)).
    discriminate.
  - exact (proj2 (proj2 (proj2 (script_stores_failure_message
                           (fun _ => inl "not json")
                           (pressed (Some "key") "Paris") holding_paris "key"
                           eq_refl eq_refl Hc Hd))
                    "not json" _ eq_refl eq_refl)).
Defined.

(** ** A run that does not press the button *)

(** Once both entries of the slot exist, a run that does not press the
    button changes nothing: the session, the log of calls and the
    messages shown are as before. *)
Theorem script_rerun_changes_nothing
    (backend : request -> string + exn) (i : inputs) (w : world) :
  generate_btn i = false ->
  is_Some (itinerary_slot w) ->
  is_Some (error_slot w) ->
  script backend i w = (inl tt, w).
Proof.
  intros Hb [x Hx] [y Hy].
  unfold itinerary_slot in Hx. unfold error_slot in Hy.
  unfold script, state_initialization, bind, session_mem, ret.
  rewrite Hx. cbv beta iota.
  rewrite bool_decide_eq_true_2 by (eexists; reflexivity).
  cbn [negb]. cbv beta iota zeta.
  rewrite Hy.
  rewrite bool_decide_eq_true_2 by (eexists; reflexivity). cbv beta iota.
  cbn [negb]. now rewrite Hb.
Qed.

Lemma script_rerun_changes_nothing_witness :
  script (fun _ => inl "[]")
    {| api_key := Some "key"; destination := "Paris"; duration_days := 2;
       budget_level := Budget; interests := []; additional_notes := "";
       generate_btn := false |} holding_paris
  = (inl tt, holding_paris).
Proof.
  apply script_rerun_changes_nothing; [reflexivity | |];
    eexists; reflexivity.
Defined.

(** After any run of the script, from any world, both entries of the
    slot exist, so the page can read them; before the first run neither
    does. *)
Theorem script_initializes (backend : request -> string + exn) (i : inputs)
    (w : world) :
  is_Some (itinerary_slot (snd (script backend i w)))
  /\ is_Some (error_slot (snd (script backend i w)))
  /\ itinerary_slot fresh = None /\ error_slot fresh = None.
Proof.
  split; [| split; [| split; reflexivity]].
  - destruct (generate_btn i) eqn:Hb.
    + destruct (script_generate_slots backend i Hb) as [d [m [_ H]]].
      destruct (H w) as [-> _]. eexists; reflexivity.
    + destruct (script_run backend i w) as [w0 [_ [_ [_ [H1 [_ ->]]]]]].
      rewrite Hb. cbn [snd]. rewrite H1. eexists; reflexivity.
  - destruct (generate_btn i) eqn:Hb.
    + destruct (script_generate_slots backend i Hb) as [d [m [_ H]]].
      destruct (H w) as [_ ->]. eexists; reflexivity.
    + destruct (script_run backend i w) as [w0 [_ [_ [_ [_ [H2 ->]]]]]].
      rewrite Hb. cbn [snd]. rewrite H2. eexists; reflexivity.
Qed.

(** A run of the script makes at most one outbound call and shows at
    most one message, and never both: either it calls the backend once
    and shows nothing, or it makes no call. *)
Theorem script_calls_or_warns (backend : request -> string + exn) (i : inputs)
    (w : world) :
  exists (calls : list request) (messages : list ui_event),
    outbound (snd (script backend i w)) = outbound w ++ calls
    /\ shown (snd (script backend i w)) = shown w ++ messages
    /\ ((calls = [] /\ (length messages <= 1)%nat)
        \/ (exists r, calls = [r] /\ messages = [])).
Proof.
  destruct (script_run backend i w) as [w0 [_ [Ho [Hs [_ [_ ->]]]]]].
  destruct (generate_btn i).
  - destruct (on_generate_cases backend i) as [[e H] | [r [d [m [_ H]]]]];
      rewrite H; cbn [snd showing stored logged reset outbound shown];
      rewrite Ho, Hs.
    + exists [], [e]. rewrite app_nil_r. split; [reflexivity |].
      split; [reflexivity |]. left. split; [reflexivity | cbn; lia].
    + exists [r], []. rewrite app_nil_r. split; [reflexivity |].
      split; [reflexivity |]. right. eauto.
  - cbn [snd]. exists [], []. rewrite !app_nil_r, Ho, Hs.
    split; [reflexivity |]. split; [reflexivity |]. left. split; [reflexivity | cbn; lia].
Qed.

(** ** The page *)

Section PageFacts.

Variable float_repr : float -> string.
Variable str_repr : string -> string.

Lemma R_for_map {A C : Type} (f : A -> R unit) (h : C -> A)
    (g : C -> list element) (l : list C) :
  (forall x, f (h x) = (g x, inl tt)) ->
  R_for f (map h l) = (concat (map g l), inl tt).
Proof.
  intros H. induction l as [|x l IH]; [reflexivity |].
  cbn [map R_for concat]. unfold R_bind. now rewrite H, IH.
Qed.

Lemma activity_lines_dict (a : Activity) :
  activity_lines float_repr str_repr (Activity_dict a)
  = (activity_entry a, inl tt).
Proof. reflexivity. Qed.

Lemma day_block_dict (d : DailyPlan) :
  day_block float_repr str_repr (DailyPlan_dict d) = ([day_section d], inl tt).
Proof.
  unfold day_block, DailyPlan_dict, within, day_section. cbn.
  rewrite (R_for_map _ Activity_dict activity_entry _ activity_lines_dict).
  reflexivity.
Qed.

Lemma concat_map_singleton {A B : Type} (f : A -> B) (l : list A) :
  concat (map (fun x => [f x]) l) = map f l.
Proof. induction l as [|x l IH]; [reflexivity |]. cbn. now rewrite IH. Qed.

Lemma budget_tips_block_dict (t : TripItinerary) :
  budget_tips_block float_repr str_repr (TripItinerary_dict t)
  = ([Expander "💡 Budget Tips for Students"
        (map (fun tip => Markdown ("- " +:+ tip)) (budget_tips t))], inl tt).
Proof.
  unfold budget_tips_block, TripItinerary_dict, within. cbn.
  rewrite (R_for_map _ VStr (fun tip => [Markdown ("- " +:+ tip)]))
    by reflexivity.
  cbn. now rewrite concat_map_singleton.
Qed.

Lemma map_block_dict (t : TripItinerary) :
  map_block (TripItinerary_dict t)
  = ([Subheader "📍 Your Trip Highlights"; trip_map t], inl tt).
Proof.
  unfold map_block, trip_map, R_bind, quiet, emit.
  rewrite compute_map_view_dict.
  destruct (all_activities t); reflexivity.
Qed.

Lemma itinerary_block_dict (t : TripItinerary) :
  itinerary_block float_repr str_repr (TripItinerary_dict t)
  = (Subheader "📅 Your Itinerary" :: map day_section (itinerary t), inl tt).
Proof.
  unfold itinerary_block, TripItinerary_dict. cbn.
  rewrite (R_for_map _ DailyPlan_dict (fun d => [day_section d]) _ day_block_dict).
  cbn. now rewrite concat_map_singleton.
Qed.

Lemma itinerary_page_dict (t : TripItinerary) :
  itinerary_page float_repr str_repr (TripItinerary_dict t)
  = (skipn 2 (trip_page t), inl tt).
Proof.
  unfold itinerary_page.
  rewrite budget_tips_block_dict, map_block_dict, itinerary_block_dict.
  reflexivity.
Qed.

(** The page as a function of what the two entries hold. *)
Lemma main_ui_slots (w : world) (e d : val) :
  error_slot w = Some e ->
  itinerary_slot w = Some d ->
  main_ui float_repr str_repr w
  = if truthy e then (error_page (py_str float_repr str_repr e), inl tt)
    else if truthy d
         then (Markdown main_title :: Markdown sub_title
                 :: fst (itinerary_page float_repr str_repr d),
               snd (itinerary_page float_repr str_repr d))
         else (empty_page, inl tt).
Proof.
  unfold error_slot, itinerary_slot. intros He Hd.
  unfold main_ui, session_attr. rewrite He.
  destruct (truthy e) eqn:Te.
  - unfold R_bind, emit, quiet. cbn. rewrite Te. reflexivity.
  - unfold R_bind at 1 2 3. unfold emit at 1 2. unfold quiet at 1.
    cbv beta iota. rewrite Te. rewrite Hd.
    unfold R_bind at 1. unfold quiet at 1. cbv beta iota.
    destruct (truthy d).
    + destruct (itinerary_page float_repr str_repr d) as [es r]. reflexivity.
    + reflexivity.
Qed.

End PageFacts.

(** When the error entry holds something truthy, a non-empty text in
    particular, the page is the title, the subtitle and one error box
    with that text after the fixed prefix; the itinerary entry is not
    looked at. *)
Theorem main_ui_shows_error
    (float_repr : float -> string) (str_repr : string -> string)
    (w : world) (e : val) :
  error_slot w = Some e ->
  truthy e = true ->
  main_ui float_repr str_repr w
  = (error_page (py_str float_repr str_repr e), inl tt)
  /\ (forall message, e = VStr message ->
                      main_ui float_repr str_repr w = (error_page message, inl tt)).
Proof.
  intros He Te. unfold error_slot in He.
  assert (H : main_ui float_repr str_repr w
              = (error_page (py_str float_repr str_repr e), inl tt)).
  { unfold main_ui, session_attr. rewrite He.
    unfold R_bind, emit, quiet. now rewrite Te. }
  split; [exact H |]. intros message ->. exact H.
Qed.

Lemma main_ui_shows_error_witness :
  main_ui (fun _ => "") (fun s => s) (stored fresh VNone (VStr "503 Service Unavailable"))
  = (error_page "503 Service Unavailable", inl tt).
Proof.
  exact (proj2 (main_ui_shows_error (fun _ => "") (fun s => s)
                  (stored fresh VNone (VStr "503 Service Unavailable"))
                  (VStr "503 Service Unavailable") eq_refl eq_refl)
           "503 Service Unavailable" eq_refl).
Defined.

(** When neither entry holds anything truthy ([None], an empty text, an
    empty dictionary or list, zero, [False]) the page is the welcome
    page. *)
Theorem main_ui_shows_empty_state
    (float_repr : float -> string) (str_repr : string -> string)
    (w : world) (e d : val) :
  error_slot w = Some e -> truthy e = false ->
  itinerary_slot w = Some d -> truthy d = false ->
  main_ui float_repr str_repr w = (empty_page, inl tt).
Proof.
  intros He Te Hd Td. rewrite (main_ui_slots _ _ w e d He Hd).
  now rewrite Te, Td.
Qed.

Lemma main_ui_shows_empty_state_witness :
  main_ui (fun _ => "") (fun s => s) (stored fresh (VDict []) (VStr ""))
  = (empty_page, inl tt).
Proof.
  apply (main_ui_shows_empty_state _ _ _ (VStr "") (VDict [])); reflexivity.
Defined.

(** When the itinerary entry holds the dictionary of a [TripItinerary]
    and the error entry nothing, the page raises nothing and shows, in
    this order: the success banner with the destination, the total cost,
    the budget tips in their order, the map (or the notice that there
    are no coordinates), and one section per day in the order of the
    days, each with its header, two lines per activity in the order of
    the activities, and a closing rule. *)
Theorem main_ui_shows_trip
    (float_repr : float -> string) (str_repr : string -> string)
    (w : world) (e : val) (t : TripItinerary) :
  error_slot w = Some e -> truthy e = false ->
  itinerary_slot w = Some (TripItinerary_dict t) ->
  main_ui float_repr str_repr w = (trip_page t, inl tt).
Proof.
  intros He Te Hd. rewrite (main_ui_slots _ _ w e _ He Hd), Te.
  cbn [truthy TripItinerary_dict]. fold (TripItinerary_dict t).
  now rewrite itinerary_page_dict.
Qed.

Lemma main_ui_shows_trip_witness :
  main_ui (fun _ => "") (fun s => s) holding_paris = (trip_page trip_paris, inl tt).
Proof.
  apply (main_ui_shows_trip _ _ _ VNone); reflexivity.
Defined.

(** The page trusts the itinerary entry.  When it holds something truthy
    whose [destination] cannot be read (a value that is not a dictionary,
    or a dictionary without that key) the run ends with that exception
    after the title and the subtitle.  When the dictionary has
    [destination] and [total_estimated_cost] but no [budget_tips], the
    run ends with [KeyError] after the banner, the cost line and an empty
    expander. *)
Theorem main_ui_raises_on_malformed_payload
    (float_repr : float -> string) (str_repr : string -> string)
    (w : world) (e d : val) :
  error_slot w = Some e -> truthy e = false ->
  itinerary_slot w = Some d -> truthy d = true ->
  (forall x, getitem d "destination" = inr x ->
             main_ui float_repr str_repr w
             = ([Markdown main_title; Markdown sub_title], inr x))
  /\ (forall de c,
        getitem d "destination" = inl de ->
        getitem d "total_estimated_cost" = inl c ->
        getitem d "budget_tips" = inr (KeyError "budget_tips") ->
        main_ui float_repr str_repr w
        = ([Markdown main_title; Markdown sub_title;
            SuccessBox ("Trip to " +:+ py_str float_repr str_repr de
                          +:+ " planned successfully!");
            Markdown ("**Estimated Total Cost:** " +:+ py_str float_repr str_repr c);
            Expander "💡 Budget Tips for Students" []],
           inr (KeyError "budget_tips"))).
Proof.
  intros He Te Hd Td. rewrite (main_ui_slots _ _ w e d He Hd), Te, Td.
  split.
  - intros x Hx. unfold itinerary_page. rewrite Hx. reflexivity.
  - intros de c H1 H2 H3. unfold itinerary_page, budget_tips_block.
    rewrite H1, H2, H3. reflexivity.
Qed.

Lemma main_ui_raises_on_malformed_payload_witness :
  main_ui (fun _ => "") (fun s => s) (stored fresh (VList [VInt 1]) VNone)
  = ([Markdown main_title; Markdown sub_title],
     inr (TypeError "indices must be integers"))
  /\ snd (main_ui (fun _ => "") (fun s => s)
            (stored fresh (VDict [("destination", VStr "Goa");
                                  ("total_estimated_cost", VStr "5000")]) VNone))
     = inr (KeyError "budget_tips").
Proof.
  split.
  - refine (proj1 (main_ui_raises_on_malformed_payload _ _
                     (stored fresh (VList [VInt 1]) VNone) VNone (VList [VInt 1])
                     eq_refl eq_refl eq_refl eq_refl) _ eq_refl).
  - rewrite (proj2 (main_ui_raises_on_malformed_payload (fun _ => "") (fun s => s)
                      (stored fresh (VDict [("destination", VStr "Goa");
                                            ("total_estimated_cost", VStr "5000")]) VNone)
                      VNone _ eq_refl eq_refl eq_refl eq_refl)
               (VStr "Goa") (VStr "5000") eq_refl eq_refl eq_refl).
    reflexivity.
Defined.

(** ** Handler and page together *)

Section RunFacts.

Variable float_repr : float -> string.
Variable str_repr : string -> string.
Variable backend : request -> string + exn.
Variables (i : inputs) (w : world) (key : string).
Hypothesis inputs_ready : ready i key.

Lemma run_script_slots :
  (forall v, outcome (backend (request_for i key)) = success_result v ->
             itinerary_slot (snd (script backend i w)) = Some v
             /\ error_slot (snd (script backend i w)) = Some VNone)
  /\ (forall m, outcome (backend (request_for i key)) = error_result m ->
                itinerary_slot (snd (script backend i w)) = Some VNone
                /\ error_slot (snd (script backend i w)) = Some (VStr m)).
Proof.
  destruct inputs_ready as [Hb [Hk [Hc Hd]]].
  exact (script_slots_of_outcome backend i w key Hb Hk Hc Hd).
Qed.

Lemma run_script_error_page (m : string) :
  outcome (backend (request_for i key)) = error_result m ->
  snd (run_script float_repr str_repr backend i w)
  = if String.eqb m "" then (empty_page, inl tt) else (error_page m, inl tt).
Proof.
  intros Ho. destruct (proj2 run_script_slots m Ho) as [H1 H2].
  unfold run_script. cbn [snd].
  rewrite (main_ui_slots _ _ _ _ _ H2 H1). cbn [truthy py_str].
  destruct (String.eqb_spec m "") as [-> | Hm]; reflexivity.
Qed.

End RunFacts.

Lemma error_message_nonempty (msg doc : string) (pos : nat) :
  Json.error_message msg doc pos <> "".
Proof.
  unfold Json.error_message. destruct (Json.line_col doc pos 1 1) as [line col].
  intros H. apply (f_equal String.length) in H.
  rewrite !JsonFacts.length_append in H. cbn in H. lia.
Qed.

Lemma loads_error_nonempty (text msg : string) :
  Json.loads text = inr msg -> msg <> "".
Proof.
  unfold Json.loads.
  destruct (Json.scan_once _ _) as [v rest | m rest].
  - destruct (Json.skip_ws rest); [discriminate |].
    intros [= <-]. apply error_message_nonempty.
  - intros [= <-]. apply error_message_nonempty.
Qed.

(** A failed request is reported on the page by one error box: with the
    fixed credential message when the backend raises [InvalidArgument],
    with the message of the decoding error when the text of the response
    is not valid JSON, and with [str(e)] for another exception whose text
    is not empty. *)
Theorem run_script_reports_failure
    (float_repr : float -> string) (str_repr : string -> string)
    (backend : request -> string + exn) (i : inputs) (w : world) (key : string) :
  ready i key ->
  let reply := backend (request_for i key) in
  let page := snd (run_script float_repr str_repr backend i w) in
  (forall s, reply = inr (InvalidArgument s) ->
             page = (error_page invalid_key_message, inl tt))
  /\ (forall text msg, reply = inl text -> Json.loads text = inr msg ->
                       page = (error_page msg, inl tt))
  /\ (forall e, reply = inr e -> (forall s, e <> InvalidArgument s) ->
                str_exn e <> "" ->
                page = (error_page (str_exn e), inl tt)).
Proof.
  intros Hr reply page. subst reply page.
  pose proof (run_script_error_page float_repr str_repr backend i w key Hr) as H.
  split; [| split].
  - intros s E. rewrite (H invalid_key_message); [reflexivity |].
    unfold outcome. now rewrite E.
  - intros text msg E Hl. rewrite (H msg).
    + destruct (String.eqb_spec msg ""); [| reflexivity].
      now apply loads_error_nonempty in Hl.
    + unfold outcome. now rewrite E, Hl.
  - intros e E He Hm. rewrite (H (str_exn e)).
    + destruct (String.eqb_spec (str_exn e) ""); [contradiction | reflexivity].
    + unfold outcome. rewrite E. destruct e; try reflexivity.
      now destruct (He str_e).
Qed.

Lemma ready_pressed : ready (pressed (Some "key") "Paris") "key".
Proof.
  repeat split; try discriminate.
  intros [H | [H | H]]; discriminate H.
Qed.

Lemma run_script_reports_failure_witness :
  snd (run_script (fun _ => "") (fun s => s)
         (fun _ => inr (InvalidArgument "400 API key not valid."))
         (pressed (Some "key") "Paris") holding_paris)
  = (error_page invalid_key_message, inl tt)
  /\ snd (run_script (fun _ => "") (fun s => s) (fun _ => inl "not json")
            (pressed (Some "key") "Paris") holding_paris)
     = (error_page "Expecting value: line 1 column 1 (char 0)", inl tt)
  /\ snd (run_script (fun _ => "") (fun s => s)
            (fun _ => inr (Exception "503 Service Unavailable"))
            (pressed (Some "key") "Paris") holding_paris)
     = (error_page "503 Service Unavailable", inl tt).
Proof.
  split; [| split].
  - exact (proj1 (run_script_reports_failure _ _
                    (fun _ => inr (InvalidArgument "400 API key not valid."))
                    (pressed (Some "key") "Paris") holding_paris "key" ready_pressed)
             "400 API key not valid." eq_refl).
  - exact (proj1 (proj2 (run_script_reports_failure _ _ (fun _ => inl "not json")
                           (pressed (Some "key") "Paris") holding_paris "key"
                           ready_pressed))
             "not json" _ eq_refl eq_refl).
  - refine (proj2 (proj2 (run_script_reports_failure _ _
                            (fun _ => inr (Exception "503 Service Unavailable"))
                            (pressed (Some "key") "Paris") holding_paris "key"
                            ready_pressed))
              (Exception "503 Service Unavailable") eq_refl _ _); discriminate.
Defined.

Lemma script_ready_shown (backend : request -> string + exn) (i : inputs)
    (w : world) (key : string) :
  ready i key -> shown (snd (script backend i w)) = shown w.
Proof.
  intros [Hb [Hk [Hc Hd]]].
  destruct (script_run backend i w) as [w0 [_ [_ [Hs [_ [_ ->]]]]]].
  rewrite Hb.
  assert (Hc' : negb (str_truthy key) || String.eqb key "your_api_key_here" = false).
  { destruct (_ || _) eqn:E; [| reflexivity]. now apply not_configured_test in E. }
  assert (Hd' : str_truthy (destination i) = true).
  { unfold str_truthy. cbn [truthy]. apply negb_true_iff.
    now apply String.eqb_neq. }
  pose proof (on_generate_call backend i w0 key Hk Hc' Hd') as H.
  cbv zeta in H. rewrite H. cbn [snd]. rewrite <- Hs.
  destruct (backend _) as [text | e].
  - destruct (Json.loads text); reflexivity.
  - destruct e; reflexivity.
Qed.

(** A failure goes unreported when the text of its exception is empty:
    the empty message is stored, the page tests it for truth, and the
    welcome page is shown with no error box; the handler itself shows no
    message either. *)
Theorem run_script_hides_empty_message
    (float_repr : float -> string) (str_repr : string -> string)
    (backend : request -> string + exn) (i : inputs) (w : world) (key : string)
    (e : exn) :
  ready i key ->
  backend (request_for i key) = inr e ->
  (forall s, e <> InvalidArgument s) ->
  str_exn e = "" ->
  snd (run_script float_repr str_repr backend i w) = (empty_page, inl tt)
  /\ error_slot (fst (run_script float_repr str_repr backend i w)) = Some (VStr "")
  /\ shown (fst (run_script float_repr str_repr backend i w)) = shown w.
Proof.
  intros Hr E He Hm.
  assert (Ho : outcome (backend (request_for i key)) = error_result "").
  { unfold outcome. rewrite E, <- Hm. destruct e; try reflexivity.
    now destruct (He str_e). }
  split; [| split].
  - now rewrite (run_script_error_page float_repr str_repr backend i w key Hr "" Ho).
  - unfold run_script. cbn [fst].
    apply (proj2 (run_script_slots backend i w key Hr) "" Ho).
  - unfold run_script. cbn [fst]. now apply script_ready_shown with (key := key).
Qed.

Lemma run_script_hides_empty_message_witness :
  snd (run_script (fun _ => "") (fun s => s) (fun _ => inr (Exception ""))
         (pressed (Some "key") "Paris") holding_paris)
  = (empty_page, inl tt).
Proof.
  refine (proj1 (run_script_hides_empty_message _ _ (fun _ => inr (Exception ""))
                   (pressed (Some "key") "Paris") holding_paris "key" (Exception "")
                   ready_pressed eq_refl _ eq_refl)).
  discriminate.
Defined.

(** A response that parses to a falsy value ([null], an empty object or
    array, zero, [false], an empty text) is stored as a success and then
    shown as the welcome page: no itinerary and no message. *)
Theorem run_script_hides_falsy_payload
    (float_repr : float -> string) (str_repr : string -> string)
    (backend : request -> string + exn) (i : inputs) (w : world) (key : string)
    (text : string) (v : val) :
  ready i key ->
  backend (request_for i key) = inl text ->
  Json.loads text = inl v ->
  truthy v = false ->
  snd (run_script float_repr str_repr backend i w) = (empty_page, inl tt)
  /\ itinerary_slot (fst (run_script float_repr str_repr backend i w)) = Some v
  /\ shown (fst (run_script float_repr str_repr backend i w)) = shown w.
Proof.
  intros Hr E Hl Tv.
  assert (Ho : outcome (backend (request_for i key)) = success_result v).
  { unfold outcome. now rewrite E, Hl. }
  destruct (proj1 (run_script_slots backend i w key Hr) v Ho) as [H1 H2].
  unfold run_script. cbn [fst snd].
  split; [| split; [exact H1 | now apply script_ready_shown with (key := key)]].
  now rewrite (main_ui_slots _ _ _ _ _ H2 H1), Tv.
Qed.

Lemma run_script_hides_falsy_payload_witness :
  snd (run_script (fun _ => "") (fun s => s) (fun _ => inl "{}")
         (pressed (Some "key") "Paris") holding_paris)
  = (empty_page, inl tt).
Proof.
  exact (proj1 (run_script_hides_falsy_payload _ _ (fun _ => inl "{}")
                  (pressed (Some "key") "Paris") holding_paris "key" "{}" (VDict [])
                  ready_pressed eq_refl eq_refl eq_refl)).
Defined.

(** When the response is the JSON text of the dictionary of a
    [TripItinerary], the run stores that dictionary and the page shows
    the trip: nothing is raised and nothing is lost between the response
    and the page. *)
Theorem run_script_shows_trip
    (float_repr : float -> string) (str_repr : string -> string)
    (backend : request -> string + exn) (i : inputs) (w : world) (key : string)
    (t : TripItinerary) :
  ready i key ->
  backend (request_for i key) = inl (Json.dumps (TripItinerary_dict t)) ->
  snd (run_script float_repr str_repr backend i w) = (trip_page t, inl tt)
  /\ itinerary_slot (fst (run_script float_repr str_repr backend i w))
     = Some (TripItinerary_dict t)
  /\ error_slot (fst (run_script float_repr str_repr backend i w)) = Some VNone.
Proof.
  intros Hr E.
  assert (Hl : Json.loads (Json.dumps (TripItinerary_dict t))
               = inl (TripItinerary_dict t))
    by apply JsonFacts.loads_dumps, unique_keys_TripItinerary_dict.
  assert (Ho : outcome (backend (request_for i key))
               = success_result (TripItinerary_dict t)).
  { unfold outcome. now rewrite E, Hl. }
  destruct (proj1 (run_script_slots backend i w key Hr) _ Ho) as [H1 H2].
  unfold run_script. cbn [fst snd].
  split; [| split; assumption].
  rewrite (main_ui_slots _ _ _ _ _ H2 H1).
  cbn [truthy TripItinerary_dict]. fold (TripItinerary_dict t).
  now rewrite itinerary_page_dict.
Qed.

Lemma run_script_shows_trip_witness :
  snd (run_script (fun _ => "") (fun s => s)
         (fun _ => inl (Json.dumps (TripItinerary_dict trip_paris)))
         (pressed (Some "key") "Paris") fresh)
  = (trip_page trip_paris, inl tt).
Proof.
  exact (proj1 (run_script_shows_trip _ _
                  (fun _ => inl (Json.dumps (TripItinerary_dict trip_paris)))
                  (pressed (Some "key") "Paris") fresh "key" trip_paris
                  ready_pressed eq_refl)).
Defined.

(** A stored payload that is not an itinerary breaks the page: when the
    response parses to a truthy value whose [destination] cannot be read,
    the handler stores it as a success and the run then ends with the
    exception of that read, after the title and the subtitle. *)
Theorem run_script_raises_on_malformed_payload
    (float_repr : float -> string) (str_repr : string -> string)
    (backend : request -> string + exn) (i : inputs) (w : world) (key : string)
    (text : string) (v : val) (x : exn) :
  ready i key ->
  backend (request_for i key) = inl text ->
  Json.loads text = inl v ->
  truthy v = true ->
  getitem v "destination" = inr x ->
  snd (run_script float_repr str_repr backend i w)
  = ([Markdown main_title; Markdown sub_title], inr x)
  /\ itinerary_slot (fst (run_script float_repr str_repr backend i w)) = Some v.
Proof.
  intros Hr E Hl Tv Hx.
  assert (Ho : outcome (backend (request_for i key)) = success_result v).
  { unfold outcome. now rewrite E, Hl. }
  destruct (proj1 (run_script_slots backend i w key Hr) v Ho) as [H1 H2].
  unfold run_script. cbn [fst snd]. split; [| exact H1].
  rewrite (main_ui_slots _ _ _ _ _ H2 H1), Tv. cbn [truthy].
  unfold itinerary_page. now rewrite Hx.
Qed.

Lemma run_script_raises_on_malformed_payload_witness :
  snd (run_script (fun _ => "") (fun s => s) (fun _ => inl "[1, 2]")
         (pressed (Some "key") "Paris") fresh)
  = ([Markdown main_title; Markdown sub_title],
     inr (TypeError "indices must be integers")).
Proof.
  exact (proj1 (run_script_raises_on_malformed_payload _ _ (fun _ => inl "[1, 2]")
                  (pressed (Some "key") "Paris") fresh "key" "[1, 2]"
                  (VList [VInt 1; VInt 2]) _
                  ready_pressed eq_refl eq_refl eq_refl eq_refl)).
Defined.

(** When the handler stops at one of its checks, the page is the welcome
    page; with a credential and an empty destination the one message
    shown is the destination warning. *)
Theorem run_script_rejected_inputs_page
    (float_repr : float -> string) (str_repr : string -> string)
    (backend : request -> string + exn) (i : inputs) (w : world) :
  generate_btn i = true ->
  not_configured (api_key i) \/ destination i = "" ->
  snd (run_script float_repr str_repr backend i w) = (empty_page, inl tt)
  /\ (forall key, api_key i = Some key -> ~ not_configured (Some key) ->
                  shown (fst (run_script float_repr str_repr backend i w))
                  = shown w ++ [StWarning "Please enter a destination."]).
Proof.
  intros Hb Hcase. unfold run_script. cbn [fst snd].
  destruct (script_run backend i w) as [w0 [_ [_ [Hs [_ [_ Hrun]]]]]].
  rewrite Hrun, Hb.
  assert (Hw : exists e, on_generate backend i w0 = (inl tt, showing (reset w0) e)
                         /\ (forall key, api_key i = Some key ->
                                         ~ not_configured (Some key) ->
                                         e = StWarning "Please enter a destination.")).
  { destruct Hcase as [Hc | Hd].
    - eexists. split; [now apply on_generate_not_configured |].
      intros key Hk Hn. rewrite Hk in Hc. contradiction.
    - eexists. split; [now apply on_generate_no_destination |].
      intros key Hk Hn. rewrite Hk.
      destruct (_ || _) eqn:E; [| reflexivity].
      now apply not_configured_test in E. }
  destruct Hw as [e [-> He]]. cbn [snd]. split.
  - destruct (reset_slots w0) as [H1 H2].
    now rewrite (main_ui_slots _ _ (showing (reset w0) e) VNone VNone H2 H1).
  - intros key Hk Hn. cbn [showing shown reset]. now rewrite Hs, (He key Hk Hn).
Qed.

Lemma run_script_rejected_inputs_page_witness :
  snd (run_script (fun _ => "") (fun s => s) (fun _ => inl "[]")
         (pressed (Some "key") "") holding_paris)
  = (empty_page, inl tt)
  /\ shown (fst (run_script (fun _ => "") (fun s => s) (fun _ => inl "[]")
                   (pressed (Some "key") "") holding_paris))
     = [StWarning "Please enter a destination."].
Proof.
  destruct (run_script_rejected_inputs_page (fun _ => "") (fun s => s)
              (fun _ => inl "[]") (pressed (Some "key") "") holding_paris
              eq_refl (or_intror eq_refl)) as [H1 H2].
  split; [exact H1 |].
  apply (H2 "key" eq_refl). intros [H | [H | H]]; discriminate H.
Defined.

(** ** The map on any payload *)

Lemma for_each_cons_inv {A B : Type} (f : A -> exc B) (x : A) (l : list A)
    (r : list B) :
  for_each f (x :: l) = inl r ->
  exists y ys, f x = inl y /\ for_each f l = inl ys /\ r = y :: ys.
Proof.
  cbn [for_each]. destruct (f x) as [y | e]; [| discriminate].
  cbn [exc_bind]. destruct (for_each f l) as [ys | e]; [| discriminate].
  cbn [exc_bind]. intros [= <-]. eauto.
Qed.

(** Two loops over the same list whose bodies agree item by item. *)
Lemma for_each_related {A B C : Type} (f : A -> exc B) (g : A -> exc C)
    (rel : B -> C -> Prop) (l : list A) :
  (forall x b c, f x = inl b -> g x = inl c -> rel b c) ->
  forall bs cs,
    for_each f l = inl bs -> for_each g l = inl cs -> Forall2 rel bs cs.
Proof.
  intros H. induction l as [|x l IH]; intros bs cs Hf Hg.
  - injection Hf as <-. injection Hg as <-. constructor.
  - apply for_each_cons_inv in Hf as [b [bs' [Hb [Hbs ->]]]].
    apply for_each_cons_inv in Hg as [c [cs' [Hc [Hcs ->]]]].
    constructor; [now apply (H x) | now apply IH].
Qed.

Lemma for_each_all {A B : Type} (f : A -> exc B) (P : B -> Prop) (l : list A) :
  (forall x b, f x = inl b -> P b) ->
  forall bs, for_each f l = inl bs -> Forall P bs.
Proof.
  intros H. induction l as [|x l IH]; intros bs Hf.
  - injection Hf as <-. constructor.
  - apply for_each_cons_inv in Hf as [b [bs' [Hb [Hbs ->]]]].
    constructor; [now apply (H x) | now apply IH].
Qed.

Lemma exc_bind_inl {A B : Type} (m : exc A) (k : A -> exc B) (b : B) :
  exc_bind m k = inl b -> exists a, m = inl a /\ k a = inl b.
Proof. destruct m as [a | e]; [eauto | discriminate]. Qed.

Lemma Forall2_map_eq {B C : Type} (h : C -> B) (bs : list B) (cs : list C) :
  Forall2 (fun b c => h c = b) bs cs -> map h cs = bs.
Proof. induction 1 as [| b c bs cs H _ IH]; [reflexivity |]. cbn. now rewrite H, IH. Qed.

Lemma day_markers_match_coords (day : val) (cs : list val) (ms : list marker) :
  day_coords day = inl cs -> day_markers day = inl ms ->
  map marker_location ms = cs.
Proof.
  unfold day_coords, day_markers. intros Hc Hm.
  apply exc_bind_inl in Hm as [d [_ Hm]].
  apply exc_bind_inl in Hm as [c [_ Hm]].
  apply exc_bind_inl in Hc as [acts [Ha Hc]].
  apply exc_bind_inl in Hm as [acts' [Ha' Hm]].
  rewrite Ha in Ha'. injection Ha' as <-.
  apply exc_bind_inl in Hc as [l [Hl Hc]].
  apply exc_bind_inl in Hm as [l' [Hl' Hm]].
  rewrite Hl in Hl'. injection Hl' as <-.
  apply Forall2_map_eq.
  refine (for_each_related _ _ _ l _ cs ms Hc Hm).
  intros act b mk Hb Hmk.
  apply exc_bind_inl in Hb as [lat [Hlat Hb]].
  apply exc_bind_inl in Hb as [lon [Hlon Hb]].
  rewrite Hlat, Hlon in Hmk. cbn [exc_bind] in Hmk.
  repeat (apply exc_bind_inl in Hmk as [? [_ Hmk]]).
  injection Hb as <-. injection Hmk as <-. reflexivity.
Qed.

Lemma concat_Forall2_map {B C : Type} (h : C -> B) (bss : list (list B))
    (css : list (list C)) :
  Forall2 (fun bs cs => map h cs = bs) bss css ->
  map h (concat css) = concat bss.
Proof.
  induction 1 as [| bs cs bss css H _ IH]; [reflexivity |].
  cbn [concat]. now rewrite map_app, H, IH.
Qed.

Lemma day_coords_pairs (day : val) (cs : list val) :
  day_coords day = inl cs ->
  Forall (fun c => exists lat lon, c = VList [lat; lon]) cs.
Proof.
  unfold day_coords. intros Hc.
  apply exc_bind_inl in Hc as [acts [_ Hc]].
  apply exc_bind_inl in Hc as [l [_ Hc]].
  refine (for_each_all _ _ l _ cs Hc).
  intros act b Hb.
  apply exc_bind_inl in Hb as [lat [_ Hb]].
  apply exc_bind_inl in Hb as [lon [_ Hb]].
  injection Hb as <-. eauto.
Qed.

Lemma Forall_concat_all {B : Type} (P : B -> Prop) (bss : list (list B)) :
  Forall (Forall P) bss -> Forall P (concat bss).
Proof.
  induction 1 as [| bs bss H _ IH]; [constructor |].
  cbn [concat]. apply Forall_app. now split.
Qed.

(** Whatever the payload, a map that is built is consistent: its markers
    stand, one for one and in order, at the coordinates given to
    [fit_bounds]; there is at least one; the map opens on the first of
    them at zoom 12; and every coordinate is the pair of an activity's
    [latitude] and [longitude] as the payload has them, of whatever
    kind. *)
Theorem map_view_markers_match_bounds (itinerary_data : val) (m : MapView) :
  compute_map_view itinerary_data = inl (Some m) ->
  all_coords itinerary_data = inl (fit_bounds m)
  /\ map marker_location (markers m) = fit_bounds m
  /\ hd_error (map marker_location (markers m)) = Some (location m)
  /\ zoom_start m = 12
  /\ Forall (fun c => exists lat lon, c = VList [lat; lon]) (fit_bounds m).
Proof.
  unfold compute_map_view. intros H.
  apply exc_bind_inl in H as [cs [Hcs H]].
  destruct cs as [|first cs]; [discriminate |].
  apply exc_bind_inl in H as [v [Hv H]].
  apply exc_bind_inl in H as [days [Hdays H]].
  apply exc_bind_inl in H as [per_day [Hm H]].
  injection H as <-. cbn [fit_bounds markers location zoom_start].
  unfold all_coords in Hcs. rewrite Hv in Hcs. cbn [exc_bind] in Hcs.
  rewrite Hdays in Hcs. cbn [exc_bind] in Hcs.
  apply exc_bind_inl in Hcs as [per_day_c [Hc Hcs]]. injection Hcs as Hcs.
  assert (Hmap : map marker_location (concat per_day) = first :: cs).
  { rewrite <- Hcs. apply concat_Forall2_map.
    refine (for_each_related _ _ _ days _ per_day_c per_day Hc Hm).
    intros day b c Hb Hcm. now apply (day_markers_match_coords day). }
  split; [| split; [exact Hmap | split; [now rewrite Hmap | split; [reflexivity |]]]].
  - unfold all_coords. rewrite Hv. cbn [exc_bind]. rewrite Hdays. cbn [exc_bind].
    rewrite Hc. cbn [exc_bind]. now rewrite Hcs.
  - rewrite <- Hcs. apply Forall_concat_all.
    refine (for_each_all _ _ days _ per_day_c Hc).
    intros day b Hb. now apply (day_coords_pairs day).
Qed.

Lemma map_view_markers_match_bounds_witness :
  exists m,
    compute_map_view (TripItinerary_dict trip_late_start) = inl (Some m)
    /\ map marker_location (markers m) = fit_bounds m.
Proof.
  eexists. split; [reflexivity |].
  exact (proj1 (proj2 (map_view_markers_match_bounds
                         (TripItinerary_dict trip_late_start) _ eq_refl))).
Defined.

(** ** Colours *)

(** The colour lookup succeeds for every integer day number, zero and
    negative numbers included, because [%] gives an index from 0 to 18;
    a day number that is a float makes it raise [TypeError]. *)
Theorem day_color_any_integer (d : Z) (f : float) :
  (exists c, day_color (VInt d) = inl c /\ In c colors
             /\ nth_error colors (Z.to_nat ((d - 1) mod 19)) = Some c)
  /\ (exists msg, day_color (VFloat f) = inr (TypeError msg)).
Proof.
  split; [| eexists; reflexivity].
  destruct (palette_color_some colors d) as [c [Hc Hin]]; [discriminate |].
  exists c. unfold day_color. rewrite Hc. repeat split; [exact Hin | exact Hc].
Qed.

Lemma mod_19_injective (a b : Z) :
  a < b < a + 19 -> a mod 19 <> b mod 19.
Proof.
  intros H E.
  pose proof (Z.div_mod a 19 ltac:(lia)). pose proof (Z.div_mod b 19 ltac:(lia)).
  assert (b - a = 19 * (b / 19 - a / 19)) by lia.
  assert (0 < b / 19 - a / 19 < 1) by nia. lia.
Qed.

(** Any two different day numbers less than 19 apart get different
    colours: the days of a trip of up to 19 consecutive days are told
    apart by colour. *)
Theorem day_colors_distinct_within_palette (d1 d2 : Z) :
  d1 < d2 < d1 + 19 ->
  palette_color colors d1 <> palette_color colors d2.
Proof.
  intros H E. unfold palette_color in E. rewrite colors_length in E.
  change (Z.of_nat 19) with 19 in E.
  pose proof (Z.mod_pos_bound (d1 - 1) 19 ltac:(lia)) as B1.
  pose proof (Z.mod_pos_bound (d2 - 1) 19 ltac:(lia)) as B2.
  apply (proj1 (List.NoDup_nth_error colors) colors_NoDup) in E.
  - apply (mod_19_injective (d1 - 1) (d2 - 1)); lia.
  - rewrite colors_length. lia.
Qed.

Lemma day_colors_distinct_within_palette_witness :
  palette_color colors 1 <> palette_color colors 14.
Proof. apply day_colors_distinct_within_palette. lia. Defined.

(** ** Interests and notes in the prompt *)

Lemma has_prefix_app_l (n a b : string) :
  has_prefix n a = true -> has_prefix n (a +:+ b) = true.
Proof.
  revert a. induction n as [|c n IH]; intros a H; [reflexivity |].
  destruct a as [|c' a]; [discriminate |].
  rewrite append_cons. cbn [has_prefix] in *.
  apply andb_true_iff in H as [-> H]. now rewrite IH.
Qed.

Lemma contains_app_l (n a b : string) :
  contains n a = true -> contains n (a +:+ b) = true.
Proof.
  induction a as [|c a IH]; intros H.
  - destruct n; [destruct b; reflexivity | discriminate].
  - rewrite append_cons. cbn [contains] in *.
    apply orb_true_iff in H as [H | H].
    + rewrite <- append_cons, (has_prefix_app_l _ _ _ H). reflexivity.
    + rewrite (IH H). apply orb_true_r.
Qed.

Lemma contains_refl (n : string) : contains n n = true.
Proof. rewrite <- (append_nil_r n) at 2. apply contains_here. Qed.

Lemma contains_join (sep x : string) (l : list string) :
  In x l -> contains x (join sep l) = true.
Proof.
  induction l as [|y l IH]; [easy |]. intros [-> | H].
  - destruct l; [apply contains_refl | apply contains_here].
  - destruct l as [|z l]; [easy |].
    change (join sep (y :: z :: l)) with (y +:+ sep +:+ join sep (z :: l)).
    now apply contains_app_r, contains_app_r, IH.
Qed.

Lemma prompt_opening_interests (destination : string) (days : Z) (budget : string) :
  exists pre, prompt_opening destination days budget = pre +:+ "- Interests: ".
Proof.
  exists (cat [String nl "    You are an expert travel planner specializing in budget travel for college students.";
               String nl "    Create a detailed "; str_int days;
               "-day itinerary for "; destination; "."; String nl "    ";
               String nl "    Constraints & Preferences:";
               String nl "    - Budget Level: "; budget;
               ". Prioritize free activities, student discounts, street food, and cheap transport.";
               String nl "    "]).
  rewrite <- (append_nil_r "- Interests: ").
  change ("- Interests: " +:+ "") with (cat ["- Interests: "]).
  rewrite <- cat_app. reflexivity.
Qed.

(** With interests the prompt names each of them, and its interests line
    lists them in the order given, separated by a comma and a space.
    With notes the line that follows is the notes clause, holding the
    notes verbatim. *)
Theorem prompt_lists_interests_and_notes (destination : string) (days : Z)
    (budget : string) (interests : list string) (notes : string) :
  let p := prompt destination days budget interests notes in
  (forall x, In x interests -> contains x p = true)
  /\ (interests <> [] ->
      contains ("- Interests: " +:+ join ", " interests +:+ ".") p = true)
  /\ (notes <> "" ->
      contains ("." +:+ String nl ("Additional Notes: " +:+ notes)
                    +:+ prompt_closing) p = true).
Proof.
  cbv zeta. rewrite prompt_shape.
  split; [| split].
  - intros x Hx. apply contains_app_r, contains_app_l.
    destruct interests as [|y l]; [easy |]. now apply contains_join.
  - intros Hne.
    destruct (prompt_opening_interests destination days budget) as [pre ->].
    replace (interests_str interests) with (join ", " interests)
      by (now destruct interests).
    rewrite (append_assoc pre). apply contains_app_r.
    match goal with
    | |- contains ?n (?a +:+ ?b +:+ ?c +:+ ?r) = true =>
      replace (a +:+ b +:+ c +:+ r) with (n +:+ r) by (now rewrite !append_assoc)
    end.
    apply contains_here.
  - intros Hn. apply contains_app_r, contains_app_r.
    unfold notes_str. cbn [truthy].
    destruct (String.eqb_spec notes ""); [contradiction |]. cbn [negb].
    apply contains_refl.
Qed.

Lemma prompt_lists_interests_and_notes_witness :
  let p := prompt "Paris, France" 2 "Budget" ["History"; "Food"] "Vegetarian" in
  contains "Food" p = true
  /\ contains "- Interests: History, Food." p = true
  /\ contains ("." +:+ String nl "Additional Notes: Vegetarian" +:+ prompt_closing)
       p = true.
Proof.
  cbv zeta.
  destruct (prompt_lists_interests_and_notes "Paris, France" 2 "Budget"
              ["History"; "Food"] "Vegetarian") as [H1 [H2 H3]].
  split; [apply H1; right; left; reflexivity |].
  split; [apply H2; discriminate | apply H3; discriminate].
Defined.
